(** * Real-Estate ROI / NPV tool: the calculators of [script.js]

    A shallow embedding of the numeric core of [script.js] (input reading and
    validation, [calcROI], [calcNPV], and the entry point that chains them)
    and the properties its specification states about it.

    JavaScript numbers are IEEE 754 binary64 values; they are modelled by the
    primitive type [float], whose operations are specified by [FloatAxioms]
    against [SpecFloat].  Built-ins of the language are modelled once, in
    [Module JS]; the two built-ins whose result is left to the engine or
    depends on text parsing ([Math.pow], [parseFloat]) are parameters of the
    functions that call them. *)

From Stdlib Require Import ZArith List String Bool Lia Sorted Floats.
From Stdlib Require Import DecimalString.
Import ListNotations.

Set Warnings "-inexact-float".

(** * Part I: the model *)

(** ** JavaScript built-ins *)

Module JS.

Local Open Scope float_scope.

(** The global [Infinity]. *)
Definition Infinity : float := infinity.

(** [Number.isFinite]: neither NaN nor an infinity. *)
Definition Number_isFinite (v : float) : bool := is_finite v.

(** The Number value of a mathematical integer (round to nearest, ties to
    even); exact on the safe integers. *)
Definition Z2F (k : Z) : float :=
  SF2Prim (binary_normalize prec emax k 0 false).

(** [Math.floor]: the greatest integral Number not above [x].  A binary64
    value with a non-negative exponent is integral already; NaN, the zeros
    and the infinities are returned as they are. *)
Definition Math_floor (x : float) : float :=
  match Prim2SF x with
  | S754_finite s m e =>
      if (0 <=? e)%Z then x
      else Z2F (cond_Zopp s (Zpos m) / 2 ^ (- e))%Z
  | _ => x
  end.

(** [Math.max] of two arguments: NaN if either is NaN, and [+0] is larger
    than [-0]. *)
Definition Math_max (a b : float) : float :=
  if is_nan a || is_nan b then nan
  else if a <? b then b
  else if b <? a then a
  else if get_sign a then b else a.

(** What a function call comes to: a value, an exception, or (in the model
    only) a loop that was given too little fuel. *)
Inductive Error : Set := RangeError.

Inductive Completion (A : Type) : Type :=
| Returns (a : A)
| Throws (e : Error)
| OutOfFuel.

Arguments Returns {A} a.
Arguments Throws {A} e.
Arguments OutOfFuel {A}.

(** An array holds at most [2^32 - 1] elements. *)
Definition MAX_ARRAY_LENGTH : N := 4294967295.

(** [Array.prototype.push]: appends at the end; the push that would bring the
    length past [MAX_ARRAY_LENGTH] throws [RangeError]. *)
Definition push {A : Type} (arr : list A) (x : A) : option (list A) :=
  if (N.of_nat (List.length arr) <? MAX_ARRAY_LENGTH)%N then Some (arr ++ [x])
  else None.

End JS.
Import JS.

(** ** Data model *)

(** The object built by [validateAndReadAll] and read by the calculators. *)
Module Values.
Record t : Set := mk
  { price : float; reno : float; mgmt : float; tax : float;
    rent : float; discount : float; years : float }.
End Values.

(** The object returned by [calcROI]. *)
Module ROIResult.
Record t : Set := mk
  { invest : float; annualRent : float; annualCosts : float;
    annualNet : float; roi : float; payback : float }.
End ROIResult.

(** One entry of [rows] in [calcNPV]. *)
Module CashFlowRow.
Record t : Set := mk
  { year : float; net : float; factor : float; pv : float;
    cumulative : float }.
End CashFlowRow.

(** The object returned by [calcNPV]. *)
Module NPVResult.
Record t : Set := mk
  { npv : float; rows : list CashFlowRow.t; discountPct : float;
    years : float }.
End NPVResult.

(** [const DEFAULTS]. *)
Definition DEFAULTS : Values.t :=
  {| Values.price := 260000; Values.reno := 17000; Values.mgmt := 2639;
     Values.tax := 3022; Values.rent := 1700; Values.discount := 2;
     Values.years := 30 |}%float.

(** ** Reading and validating the inputs *)

(** The part of a DOM element the script touches. *)
Record Element : Set := mkElement { value : string; textContent : string }.

(** The document: [getElementById] finds an element or [null]. *)
Definition Document : Set := string -> option Element.

Definition qs (doc : Document) (id : string) : option Element := doc id.

(** [el.textContent = text] on the element with the given id. *)
Definition setTextContent (doc : Document) (id : string) (el : Element)
    (text : string) : Document :=
  fun id' =>
    if String.eqb id' id then Some (mkElement (value el) text) else doc id'.

(** [setFieldMessage(id, msg)]. *)
Definition setFieldMessage (doc : Document) (id : string) (msg : string)
    : Document :=
  match qs doc id with
  | Some el => setTextContent doc id el msg
  | None => doc
  end.

Section Inputs.

Local Open Scope float_scope.

(** [parseFloat]: the Number a text starts with, NaN if it starts with none. *)
Variable parseFloat : string -> float.

(** [readInputValue(id, fallback)]. *)
Definition readInputValue (doc : Document) (id : string) (fallback : float)
    : float :=
  match qs doc id with
  | None => fallback
  | Some el =>
      let v := parseFloat (value el) in
      if Number_isFinite v then v else fallback
  end.

(** [validateAndReadAll()]: the values read, and the document with the field
    messages written. *)
Definition validateAndReadAll (doc : Document) : Values.t * Document :=
  let price := readInputValue doc "price" (Values.price DEFAULTS) in
  let reno := readInputValue doc "reno" (Values.reno DEFAULTS) in
  let mgmt := readInputValue doc "mgmt" (Values.mgmt DEFAULTS) in
  let tax := readInputValue doc "tax" (Values.tax DEFAULTS) in
  let rent := readInputValue doc "rent" (Values.rent DEFAULTS) in
  let discount := readInputValue doc "discount" (Values.discount DEFAULTS) in
  let years :=
    Math_max 1 (Math_floor (readInputValue doc "years" (Values.years DEFAULTS))) in
  let doc := setFieldMessage doc "price-msg"
      (if (price <=? 0)%float then "Price must be positive" else "") in
  let doc := setFieldMessage doc "reno-msg"
      (if (reno <? 0)%float then "Renovation must be non-negative" else "") in
  let doc := setFieldMessage doc "mgmt-msg"
      (if (mgmt <? 0)%float then "Management fee must be non-negative" else "") in
  let doc := setFieldMessage doc "tax-msg"
      (if (tax <? 0)%float then "Property tax must be non-negative" else "") in
  let doc := setFieldMessage doc "rent-msg"
      (if (rent <? 0)%float then "Rent must be non-negative" else "") in
  let doc := setFieldMessage doc "discount-msg"
      (if ((discount <? -99) || (1000 <? discount))%float
       then "Discount rate seems unusual" else "") in
  let doc := setFieldMessage doc "years-msg"
      (if (years <=? 0)%float then "Years must be at least 1" else "") in
  ({| Values.price := price; Values.reno := reno; Values.mgmt := mgmt;
      Values.tax := tax; Values.rent := rent; Values.discount := discount;
      Values.years := years |}, doc).

End Inputs.

(** ** The ROI calculator *)

Section ROI.

Local Open Scope float_scope.

(** [calcROI(values)]. *)
Definition calcROI (values : Values.t) : ROIResult.t :=
  let price := Values.price values in
  let reno := Values.reno values in
  let mgmt := Values.mgmt values in
  let tax := Values.tax values in
  let rent := Values.rent values in
  let invest := price + reno in
  let annualRent := rent * 12 in
  let annualNet := annualRent - (mgmt + tax) in
  let roi := if invest =? 0 then 0 else annualNet / invest * 100 in
  let payback := if 0 <? annualNet then invest / annualNet else Infinity in
  {| ROIResult.invest := invest; ROIResult.annualRent := annualRent;
     ROIResult.annualCosts := mgmt + tax; ROIResult.annualNet := annualNet;
     ROIResult.roi := roi; ROIResult.payback := payback |}.

(** A division, as evaluated: what is divided and by what. *)
Record Division : Set := mkDivision { dividend : float; divisor : float }.

(** [calcROI(values)] once more, writing down each division as it is
    evaluated: a conditional expression evaluates the selected branch
    only. *)
Definition calcROI_traced (values : Values.t)
    : ROIResult.t * list Division :=
  let price := Values.price values in
  let reno := Values.reno values in
  let mgmt := Values.mgmt values in
  let tax := Values.tax values in
  let rent := Values.rent values in
  let invest := price + reno in
  let annualRent := rent * 12 in
  let annualNet := annualRent - (mgmt + tax) in
  let (roi, roiDivisions) :=
    if invest =? 0 then (0, [])
    else (annualNet / invest * 100, [mkDivision annualNet invest]) in
  let (payback, paybackDivisions) :=
    if 0 <? annualNet then (invest / annualNet, [mkDivision invest annualNet])
    else (Infinity, []) in
  ({| ROIResult.invest := invest; ROIResult.annualRent := annualRent;
      ROIResult.annualCosts := mgmt + tax; ROIResult.annualNet := annualNet;
      ROIResult.roi := roi; ROIResult.payback := payback |},
   roiDivisions ++ paybackDivisions).

(** The divisions a call of [calcROI] evaluates. *)
Definition calcROI_divisions (values : Values.t) : list Division :=
  snd (calcROI_traced values).

(** What [writeResultsToCards] does to the payback card: its text is set to
    a dash, or the value is handed to [animateTo]. *)
Inductive CardUpdate : Set :=
| SetText (text : string)
| AnimateTo (target : float).

Definition paybackCard (results : ROIResult.t) : CardUpdate :=
  if ROIResult.payback results =? Infinity then SetText "—"
  else AnimateTo (ROIResult.payback results).

End ROI.

(** ** The NPV calculator *)

Section NPV.

Local Open Scope float_scope.

(** [Math.pow]: ECMAScript leaves its result to the engine (an
    implementation-approximated value). *)
Variable Math_pow : float -> float -> float.

(** The [for] loop of [calcNPV]: [t] counts in Numbers from [1] while
    [t <= years]; each turn pushes one row. *)
Fixpoint calcNPV_loop (fuel : nat) (years r netAnnual : float)
    (t cumulative : float) (rows : list CashFlowRow.t)
    : Completion (float * list CashFlowRow.t) :=
  match fuel with
  | O => OutOfFuel
  | S fuel' =>
      if t <=? years then
        let factor := 1 / Math_pow (1 + r) t in
        let pvVal := netAnnual * factor in
        let cumulative := cumulative + pvVal in
        match push rows
                {| CashFlowRow.year := t; CashFlowRow.net := netAnnual;
                   CashFlowRow.factor := factor; CashFlowRow.pv := pvVal;
                   CashFlowRow.cumulative := cumulative |} with
        | None => Throws RangeError
        | Some rows =>
            calcNPV_loop fuel' years r netAnnual (t + 1) cumulative rows
        end
      else Returns (cumulative, rows)
  end.

(** [calcNPV(values)]. *)
Definition calcNPV (fuel : nat) (values : Values.t)
    : Completion NPVResult.t :=
  let price := Values.price values in
  let reno := Values.reno values in
  let mgmt := Values.mgmt values in
  let tax := Values.tax values in
  let rent := Values.rent values in
  let discountPct := Values.discount values in
  let years := Math_max 1 (Math_floor (Values.years values)) in
  let r := Math_max (-0.99) (discountPct / 100) in
  let invest := price + reno in
  let inflowAnnual := rent * 12 in
  let outflowAnnual := mgmt + tax in
  let netAnnual := inflowAnnual - outflowAnnual in
  let cumulative := 0 in
  let rows := [] in
  let y0_pv := - invest in
  let cumulative := cumulative + y0_pv in
  match push rows
          {| CashFlowRow.year := 0; CashFlowRow.net := - invest;
             CashFlowRow.factor := 1; CashFlowRow.pv := y0_pv;
             CashFlowRow.cumulative := cumulative |} with
  | None => Throws RangeError
  | Some rows =>
      match calcNPV_loop fuel years r netAnnual 1 cumulative rows with
      | Returns (cumulative, rows) =>
          let npv := cumulative in
          Returns {| NPVResult.npv := npv; NPVResult.rows := rows;
                     NPVResult.discountPct := discountPct;
                     NPVResult.years := years |}
      | Throws e => Throws e
      | OutOfFuel => OutOfFuel
      end
  end.

End NPV.

(** ** The calculation entry point *)

(** What [calculate()] computes: the values it validated, and what the two
    calculators made of them (an exception of [calcNPV] is caught there). *)
Record Calculation : Type := mkCalculation
  { inputs : Values.t;
    page : Document;
    roiRes : ROIResult.t;
    npvRes : Completion NPVResult.t }.

(** [calculate()], without the rendering. *)
Definition calculate (parseFloat : string -> float)
    (Math_pow : float -> float -> float) (fuel : nat) (doc : Document)
    : Calculation :=
  let (inputs, doc) := validateAndReadAll parseFloat doc in
  let roiRes := calcROI inputs in
  let npvRes := calcNPV Math_pow fuel inputs in
  {| inputs := inputs; page := doc; roiRes := roiRes; npvRes := npvRes |}.

(** ** Reference built-ins, to run the model *)

Module Ref.

Local Open Scope float_scope.

(** The mathematical integer a Number truncates to ([0] if it has none). *)
Definition F2Z (x : float) : Z :=
  match Prim2SF x with
  | S754_finite s m e => cond_Zopp s (Z.shiftl (Zpos m) e)
  | _ => 0%Z
  end.

Fixpoint powN (b : float) (n : nat) : float :=
  match n with
  | O => 1
  | S n' => powN b n' * b
  end.

(** A [Math.pow] for non-negative integral exponents, by repeated
    multiplication. *)
Definition Math_pow (b e : float) : float := powN b (Z.to_nat (F2Z e)).

(** A [parseFloat] for decimal integer literals; any other text reads as
    NaN. *)
Definition parseFloat (s : string) : float :=
  match NilZero.int_of_string s with
  | Some d => Z2F (Z.of_int d)
  | None => nan
  end.

End Ref.

(** ** Vocabulary of the properties *)

Section Vocabulary.

Local Open Scope float_scope.

(** The sum of the present values of some rows, added in row order from
    [0] as the calculator adds them. *)
Definition sumPV (rows : list CashFlowRow.t) : float :=
  fold_left (fun acc row => acc + CashFlowRow.pv row) rows 0.

(** Every row holds the sum of the present values up to and including its
    own. *)
Definition cumulativeOK (rows : list CashFlowRow.t) : Prop :=
  forall k row, nth_error rows k = Some row ->
    CashFlowRow.cumulative row = sumPV (firstn (S k) rows).

(** Rows that continue a running sum which stands at [acc]. *)
Fixpoint runningFrom (acc : float) (rows : list CashFlowRow.t) : Prop :=
  match rows with
  | [] => True
  | row :: rest =>
      CashFlowRow.cumulative row = acc + CashFlowRow.pv row
      /\ runningFrom (CashFlowRow.cumulative row) rest
  end.

(** A row of a year after the purchase: the constant net cash flow,
    discounted by [1 / (1 + r)^year]. *)
Definition discounted (Math_pow : float -> float -> float)
    (r netAnnual : float) (row : CashFlowRow.t) : Prop :=
  CashFlowRow.net row = netAnnual
  /\ CashFlowRow.factor row = 1 / Math_pow (1 + r) (CashFlowRow.year row)
  /\ CashFlowRow.pv row = netAnnual * CashFlowRow.factor row.

(** [x] is [target] to within [tol]. *)
Definition approx (x target tol : float) : bool :=
  abs (x - target) <=? tol.

(** The horizon [calcNPV] works with: the years entered, floored, and at
    least [1]. *)
Definition horizonYears (values : Values.t) : float :=
  Math_max 1 (Math_floor (Values.years values)).

(** The years [0], [1], ..., [n] as Numbers. *)
Definition yearsUpTo (n : nat) : list float :=
  map (fun i => Z2F (Z.of_nat i)) (seq 0 (S n)).

(** An entry that [readInputValue] cannot use: the element is missing, or
    its text parses to NaN or an infinity. *)
Definition unreadable (parseFloat : string -> float) (doc : Document)
    (id : string) : Prop :=
  match qs doc id with
  | None => True
  | Some el => Number_isFinite (parseFloat (value el)) = false
  end.

(** An entry whose text parses to the finite Number [v]. *)
Definition entered (parseFloat : string -> float) (doc : Document)
    (id : string) (v : float) : Prop :=
  exists el, qs doc id = Some el
             /\ parseFloat (value el) = v /\ Number_isFinite v = true.

(** All seven fields are finite Numbers. *)
Definition allFinite (values : Values.t) : Prop :=
  Number_isFinite (Values.price values) = true
  /\ Number_isFinite (Values.reno values) = true
  /\ Number_isFinite (Values.mgmt values) = true
  /\ Number_isFinite (Values.tax values) = true
  /\ Number_isFinite (Values.rent values) = true
  /\ Number_isFinite (Values.discount values) = true
  /\ Number_isFinite (Values.years values) = true.

End Vocabulary.

(** ** Sample inputs *)

Module Sample.

Local Open Scope float_scope.

(** Nothing paid and nothing renovated. *)
Definition zeroInvestment : Values.t :=
  {| Values.price := 0; Values.reno := 0; Values.mgmt := 2639;
     Values.tax := 3022; Values.rent := 1700; Values.discount := 2;
     Values.years := 30 |}.

(** No rent: the yearly costs are all there is. *)
Definition noRent : Values.t :=
  {| Values.price := 260000; Values.reno := 17000; Values.mgmt := 2639;
     Values.tax := 3022; Values.rent := 0; Values.discount := 2;
     Values.years := 30 |}.

(** Two and a half years. *)
Definition shortHorizon : Values.t :=
  {| Values.price := 260000; Values.reno := 17000; Values.mgmt := 2639;
     Values.tax := 3022; Values.rent := 1700; Values.discount := 2;
     Values.years := 2.5 |}.

(** Two and a half years at a discount rate of -150 percent. *)
Definition negativeRate : Values.t :=
  {| Values.price := 260000; Values.reno := 17000; Values.mgmt := 2639;
     Values.tax := 3022; Values.rent := 1700; Values.discount := -150;
     Values.years := 2.5 |}.

(** A horizon of [2^32 - 1] years. *)
Definition tooManyYears : Values.t :=
  {| Values.price := 260000; Values.reno := 17000; Values.mgmt := 2639;
     Values.tax := 3022; Values.rent := 1700; Values.discount := 2;
     Values.years := 4294967295 |}.

(** A page with a negative price, a rent that is no number, seven years,
    and the message element of the price. *)
Definition page : Document :=
  fun id =>
    if String.eqb id "price" then Some (mkElement "-5" "")
    else if String.eqb id "price-msg" then Some (mkElement "" "")
    else if String.eqb id "rent" then Some (mkElement "abc" "")
    else if String.eqb id "years" then Some (mkElement "7" "")
    else None.

End Sample.

(** ** Integral binary64 values *)

(** The number of binary digits of a mantissa. *)
Definition D (p : positive) : Z := Zpos (digits2_pos p).

(** [intRep n m e]: the normal mantissa [m] and exponent [e] stand for the
    positive integer [n], that is [m * 2^e = n] with [m] of 53 bits. *)
Definition intRep (n : Z) (m : positive) (e : Z) : Prop :=
  (D m = 53 /\ -52 <= e <= 0 /\ Zpos m = n * 2 ^ (- e))%Z.

(** The specification float of an integral Number. *)
Definition IntSF (n : Z) (f : spec_float) : Prop :=
  match n with
  | Z0 => f = S754_zero false
  | Zpos p => exists m e, f = S754_finite false m e /\ intRep (Zpos p) m e
  | Zneg p => exists m e, f = S754_finite true m e /\ intRep (Zpos p) m e
  end.

(** ** Further parts of the script: formatting and the table *)

Section Table.

Local Open Scope float_scope.

(** [n.toLocaleString('en-US', { style: 'currency', currency: 'USD',
    maximumFractionDigits: 2 })], left to the engine's locale data. *)
Variable toLocaleCurrency : float -> string.

(** [Number(n).toLocaleString(undefined, { maximumFractionDigits: d })]. *)
Variable toLocaleDigits : float -> float -> string.

(** The text a Number turns into inside a template literal. *)
Variable Number_toString : float -> string.

(** [fmtCurrency(n)]. *)
Definition fmtCurrency (n : float) : string :=
  let v := if Number_isFinite n then n else 0 in
  toLocaleCurrency v.

(** [fmtNumber(n, d)]. *)
Definition fmtNumber (n d : float) : string :=
  if Number_isFinite n then toLocaleDigits n d else "—"%string.

(** The [for ... of] loop of [renderNPVTable]: the year of the first row
    whose cumulative present value is at least zero, [null] if there is
    none. *)
Fixpoint breakevenYear (rows : list CashFlowRow.t) : option float :=
  match rows with
  | [] => None
  | r :: rest =>
      if 0 <=? CashFlowRow.cumulative r then Some (CashFlowRow.year r)
      else breakevenYear rest
  end.

(** What the template of one table row is filled with. *)
Record RowView : Set := mkRowView
  { trClass : string; yearText : string;
    netClass : string; netText : string;
    factorText : string;
    pvClass : string; pvText : string;
    cumulativeClass : string; cumulativeText : string }.

(** The holes of the row template, as the arrow function fills them. *)
Definition renderRow (highlight : option float) (row : CashFlowRow.t)
    : RowView :=
  let clsNet :=
    (if (0 <=? CashFlowRow.net row)%float then "positive"
     else "negative")%string in
  let trClass :=
    match highlight with
    | Some h =>
        (if (CashFlowRow.year row =? h)%float then "highlight" else "")%string
    | None => ""%string
    end in
  let netText :=
    (if (CashFlowRow.year row =? 0)%float then "—"
     else fmtCurrency (CashFlowRow.net row))%string in
  let pvClass :=
    (if (0 <=? CashFlowRow.pv row)%float then "positive"
     else "negative")%string in
  let cumulativeClass :=
    (if (0 <=? CashFlowRow.cumulative row)%float then "positive"
     else "negative")%string in
  mkRowView trClass (Number_toString (CashFlowRow.year row))
    clsNet netText
    (fmtNumber (CashFlowRow.factor row) 4)
    pvClass (fmtCurrency (CashFlowRow.pv row))
    cumulativeClass (fmtCurrency (CashFlowRow.cumulative row)).

(** The double quote and the line break of the template. *)
Definition quote : string := String (Ascii.ascii_of_nat 34) EmptyString.
Definition newline : string := String (Ascii.ascii_of_nat 10) EmptyString.

(** The row template with its holes filled. *)
Definition rowHtml (v : RowView) : string :=
  (newline ++ "      <tr class=" ++ quote ++ trClass v ++ quote ++ ">"
   ++ newline ++ "        <td>" ++ yearText v ++ "</td>"
   ++ newline ++ "        <td class=" ++ quote ++ netClass v ++ quote ++ ">"
   ++ netText v ++ "</td>"
   ++ newline ++ "        <td>" ++ factorText v ++ "</td>"
   ++ newline ++ "        <td class=" ++ quote ++ pvClass v ++ quote ++ ">"
   ++ pvText v ++ "</td>"
   ++ newline ++ "        <td class=" ++ quote ++ cumulativeClass v ++ quote
   ++ ">" ++ cumulativeText v ++ "</td>"
   ++ newline ++ "      </tr>")%string.

(** The views of all rows of a table. *)
Definition tableViews (npvResult : NPVResult.t) : list RowView :=
  let highlight := breakevenYear (NPVResult.rows npvResult) in
  map (renderRow highlight) (NPVResult.rows npvResult).

(** [renderNPVTable(npvResult)]: the new [innerHTML] of the table body, or
    nothing when the page has no such element. *)
Definition renderNPVTable (doc : Document) (npvResult : NPVResult.t)
    : option string :=
  match qs doc "pv-merged-body" with
  | None => None
  | Some _ => Some (String.concat "" (map rowHtml (tableViews npvResult)))
  end.

End Table.

(** ** Further parts of the script: local storage and the theme *)

(** The browser's storage: what is stored, whether access is refused (every
    call throws), and whether it is full (every write throws). *)
Record Storage : Set := mkStorage
  { items : string -> option string; denied : bool; full : bool }.

(** [localStorage.getItem(key)]: [None] when the call throws. *)
Definition getItem (st : Storage) (key : string) : option (option string) :=
  if denied st then None else Some (items st key).

(** [localStorage.setItem(key, text)]: [None] when the call throws. *)
Definition setItem (st : Storage) (key text : string) : option Storage :=
  if denied st || full st then None
  else Some {| items := fun k => if String.eqb k key then Some text
                                 else items st k;
               denied := denied st; full := full st |}.

(** [const STORAGE_KEYS]. *)
Definition STORAGE_KEYS_inputs : string := "fw_inputs".
Definition STORAGE_KEYS_theme : string := "fw_theme".

Section Persistence.

(** [JSON.stringify] on the values object. *)
Variable JSON_stringify : Values.t -> string.

(** What [JSON.parse] returns, and [JSON.parse] itself ([None] when it
    throws). *)
Variable Saved : Type.
Variable JSON_parse : string -> option Saved.

(** [saveInputs(values)]: a failing write is ignored. *)
Definition saveInputs (st : Storage) (values : Values.t) : Storage :=
  match setItem st STORAGE_KEYS_inputs (JSON_stringify values) with
  | Some st' => st'
  | None => st
  end.

(** [loadInputs()]: [None] stands for [null]. *)
Definition loadInputs (st : Storage) : option Saved :=
  match getItem st STORAGE_KEYS_inputs with
  | None => None
  | Some None => None
  | Some (Some raw) => if String.eqb raw "" then None else JSON_parse raw
  end.

End Persistence.

(** The theme: whether the root element carries the class [theme-light],
    and the storage. *)
Record ThemeState : Set := mkThemeState
  { themeLight : bool; storage : Storage }.

(** [applyTheme(theme)]: a failing write is ignored. *)
Definition applyTheme (theme : string) (state : ThemeState) : ThemeState :=
  let light := String.eqb theme "light" in
  match setItem (storage state) STORAGE_KEYS_theme theme with
  | Some st' => {| themeLight := light; storage := st' |}
  | None => {| themeLight := light; storage := storage state |}
  end.

(** [loadTheme()]; [prefersDark] is what
    [window.matchMedia('(prefers-color-scheme: dark)')] answers.  The read is
    not guarded: [None] when it throws. *)
Definition loadTheme (prefersDark : bool) (state : ThemeState)
    : option ThemeState :=
  match getItem (storage state) STORAGE_KEYS_theme with
  | None => None
  | Some t =>
      match t with
      | Some (String c rest as theme) => Some (applyTheme theme state)
      | _ =>
          Some (applyTheme (if prefersDark then "dark" else "light") state)
      end
  end.

(** ** Further parts of the script: filling the inputs *)

Section Populate.

(** The text a Number turns into when it is assigned to [el.value]. *)
Variable Number_toString : float -> string.

(** [values[k]] on an object whose properties are Numbers; [None] stands
    for [undefined]. *)
Definition NumberObject : Set := string -> option float.

(** The values object, read by key. *)
Definition objectOf (values : Values.t) : NumberObject :=
  fun k =>
    if String.eqb k "price" then Some (Values.price values)
    else if String.eqb k "reno" then Some (Values.reno values)
    else if String.eqb k "mgmt" then Some (Values.mgmt values)
    else if String.eqb k "tax" then Some (Values.tax values)
    else if String.eqb k "rent" then Some (Values.rent values)
    else if String.eqb k "discount" then Some (Values.discount values)
    else if String.eqb k "years" then Some (Values.years values)
    else None.

(** [Object.keys(DEFAULTS)]. *)
Definition DEFAULTS_keys : list string :=
  ["price"; "reno"; "mgmt"; "tax"; "rent"; "discount"; "years"]%string.

(** [Object.assign({}, DEFAULTS, saved)]: the saved properties win. *)
Definition assignOverDefaults (saved : NumberObject) : NumberObject :=
  fun k =>
    match saved k with
    | Some v => Some v
    | None => objectOf DEFAULTS k
    end.

(** [el.value = text] on the element with the given id. *)
Definition setValue (doc : Document) (id : string) (el : Element)
    (text : string) : Document :=
  fun id' =>
    if String.eqb id' id then Some (mkElement text (textContent el))
    else doc id'.

(** One turn of the [forEach] of [populateInputs]. *)
Definition populateInput (values : NumberObject) (doc : Document)
    (k : string) : Document :=
  match qs doc k with
  | Some el =>
      setValue doc k el
        (Number_toString
           match values k with
           | Some v => v
           | None =>
               match objectOf DEFAULTS k with
               | Some d => d
               | None => nan
               end
           end)
  | None => doc
  end.

(** [populateInputs(values)]. *)
Definition populateInputs (values : NumberObject) (doc : Document)
    : Document :=
  fold_left (populateInput values) DEFAULTS_keys doc.

End Populate.

(** ** Vocabulary of the further properties *)

(** The ids of the seven message elements. *)
Definition messageIds : list string :=
  ["price-msg"; "reno-msg"; "mgmt-msg"; "tax-msg"; "rent-msg";
   "discount-msg"; "years-msg"]%string.

(** Values that break none of the rules [validateAndReadAll] checks. *)
Definition ruleAbiding (values : Values.t) : Prop :=
  ((Values.price values <=? 0) = false
   /\ (Values.reno values <? 0) = false
   /\ (Values.mgmt values <? 0) = false
   /\ (Values.tax values <? 0) = false
   /\ (Values.rent values <? 0) = false
   /\ (Values.discount values <? -99) = false
   /\ (1000 <? Values.discount values) = false)%float.

(** ** Further samples and vocabulary *)

Module MoreSamples.

Local Open Scope float_scope.

(** Years that are no Number. *)
Definition nanYears : Values.t :=
  {| Values.price := 260000; Values.reno := 17000; Values.mgmt := 2639;
     Values.tax := 3022; Values.rent := 1700; Values.discount := 2;
     Values.years := nan |}.

(** Years below zero. *)
Definition negativeYears : Values.t :=
  {| Values.price := 260000; Values.reno := 17000; Values.mgmt := 2639;
     Values.tax := 3022; Values.rent := 1700; Values.discount := 2;
     Values.years := -3.5 |}.

End MoreSamples.

(** The index of the first row whose cumulative present value is at least
    zero. *)
Fixpoint breakevenIndex (rows : list CashFlowRow.t) : option nat :=
  match rows with
  | [] => None
  | r :: rest =>
      if (0 <=? CashFlowRow.cumulative r)%float then Some 0%nat
      else option_map S (breakevenIndex rest)
  end.

(** The Number [populateInputs] writes into the input [k]. *)
Definition populated (values : NumberObject) (k : string) : float :=
  match values k with
  | Some v => v
  | None => match objectOf DEFAULTS k with Some d => d | None => nan end
  end.

(** The seven values come back from their texts. *)
Definition roundTrips (parseFloat : string -> float)
    (Number_toString : float -> string) (values : Values.t) : Prop :=
  parseFloat (Number_toString (Values.price values)) = Values.price values
  /\ parseFloat (Number_toString (Values.reno values)) = Values.reno values
  /\ parseFloat (Number_toString (Values.mgmt values)) = Values.mgmt values
  /\ parseFloat (Number_toString (Values.tax values)) = Values.tax values
  /\ parseFloat (Number_toString (Values.rent values)) = Values.rent values
  /\ parseFloat (Number_toString (Values.discount values))
     = Values.discount values
  /\ parseFloat (Number_toString (Values.years values)) = Values.years values.

Module MoreRef.

(** A Number-to-text conversion for integral Numbers, in decimal. *)
Definition Number_toString (x : float) : string :=
  NilZero.string_of_int (Z.to_int (Ref.F2Z x)).

(** A storage that works and holds nothing. *)
Definition emptyStorage : Storage :=
  {| items := fun _ => None; denied := false; full := false |}.

(** A page with all seven inputs, empty. *)
Definition blankPage : Document :=
  fun id =>
    if existsb (String.eqb id) DEFAULTS_keys then Some (mkElement "" "")
    else None.

(** A page with the message element of the price and of the years, and
    nothing else. *)
Definition messagePage : Document :=
  fun id =>
    if String.eqb id "price-msg" then Some (mkElement "" "stale")
    else if String.eqb id "years-msg" then Some (mkElement "" "stale")
    else None.

(** A [JSON.stringify] and a [JSON.parse] that keep the years only. *)
Definition stringify (values : Values.t) : string :=
  MoreRef.Number_toString (Values.years values).

Definition parse (text : string) : option float :=
  Some (Ref.parseFloat text).

(** A formatter that prints integral Numbers. *)
Definition toLocale (x : float) : string := MoreRef.Number_toString x.

Definition toLocaleDigits (x d : float) : string := MoreRef.Number_toString x.

End MoreRef.

(** * Part II: properties *)

(** Splits a conjunction into its conjuncts, and nothing else. *)
Ltac conjuncts := repeat match goal with |- _ /\ _ => split end.

(** ** The built-ins on some arguments *)

Section BuiltinExamples.

Local Open Scope float_scope.

Example Math_floor_examples :
  Math_floor 2.5 = 2 /\ Math_floor (-2.5) = -3 /\ Math_floor 0.5 = 0
  /\ Math_floor (-0.5) = -1 /\ Math_floor 30 = 30
  /\ Math_floor (-0) = -0 /\ Math_floor infinity = infinity
  /\ Math_floor nan = nan.
Proof. conjuncts; reflexivity. Qed.

Example Math_max_examples :
  Math_max 1 2.5 = 2.5 /\ Math_max 1 (-3) = 1 /\ Math_max (-0) 0 = 0
  /\ Math_max 0 (-0) = 0 /\ Math_max 1 nan = nan
  /\ Math_max 1 neg_infinity = 1 /\ Math_max (-0.99) (-1.5) = -0.99.
Proof. conjuncts; reflexivity. Qed.

Example Z2F_examples :
  Z2F 0 = 0 /\ Z2F 30 = 30 /\ Z2F (-1) = -1
  /\ Z2F 4294967295 = 4294967295
  /\ Z2F 9007199254740993 = 9007199254740992.
Proof. conjuncts; reflexivity. Qed.

Example push_examples :
  push [1; 2] 3 = Some [1; 2; 3] /\ push [] 1 = Some [1].
Proof. conjuncts; reflexivity. Qed.

Example Ref_examples :
  Ref.Math_pow 1.5 2 = 2.25 /\ Ref.Math_pow 1.02 1 = 1.02
  /\ Ref.Math_pow 7 0 = 1 /\ Ref.parseFloat "-12" = -12
  /\ Ref.parseFloat "abc" = nan.
Proof. conjuncts; reflexivity. Qed.

End BuiltinExamples.

(** ** Binary64 facts: comparison *)

Section Comparison.

Local Open Scope float_scope.

(** Comparison of two specification floats is antisymmetric. *)
Lemma SFcompare_antisym (x y : spec_float) :
  SFcompare y x = option_map CompOpp (SFcompare x y).
Proof.
  destruct x as [[]|[]| |[] mx ex], y as [[]|[]| |[] my ey];
    simpl; try reflexivity;
    rewrite (Z.compare_antisym ex ey);
    destruct (ex ?= ey)%Z; simpl; try reflexivity;
    rewrite Pos.compare_cont_antisym; simpl;
    try rewrite CompOpp_involutive; reflexivity.
Qed.

Lemma leb_true_ltb_false (x y : float) :
  (x <=? y) = true -> (y <? x) = false.
Proof.
  rewrite leb_spec, ltb_spec. unfold SFleb, SFltb.
  rewrite (SFcompare_antisym (Prim2SF x) (Prim2SF y)).
  destruct (SFcompare (Prim2SF x) (Prim2SF y)) as [[]|]; simpl; congruence.
Qed.

Lemma ltb_true_eqb_false (x y : float) :
  (x <? y) = true -> (y =? x) = false.
Proof.
  rewrite ltb_spec, eqb_spec. unfold SFltb, SFeqb.
  rewrite (SFcompare_antisym (Prim2SF x) (Prim2SF y)).
  destruct (SFcompare (Prim2SF x) (Prim2SF y)) as [[]|]; simpl; congruence.
Qed.

End Comparison.

(** ** Binary64 facts: rounding an exactly representable integer *)

Section ExactRounding.

Local Open Scope Z_scope.

Lemma digits2_pos_bounds (p : positive) :
  2 ^ (D p - 1) <= Zpos p < 2 ^ D p.
Proof.
  unfold D. induction p as [p IH|p IH|]; simpl digits2_pos.
  - rewrite Pos2Z.inj_succ.
    replace (Z.succ (Zpos (digits2_pos p)) - 1) with (Z.succ (Zpos (digits2_pos p) - 1)) by lia.
    rewrite !Z.pow_succ_r by lia. lia.
  - rewrite Pos2Z.inj_succ.
    replace (Z.succ (Zpos (digits2_pos p)) - 1) with (Z.succ (Zpos (digits2_pos p) - 1)) by lia.
    rewrite !Z.pow_succ_r by lia. lia.
  - simpl. lia.
Qed.

Lemma digits2_pos_unique (p : positive) (d : Z) :
  2 ^ (d - 1) <= Zpos p < 2 ^ d -> D p = d.
Proof.
  intros [Hlo Hhi]. pose proof (digits2_pos_bounds p) as [Blo Bhi].
  assert (0 < D p) by (unfold D; lia).
  assert (0 < d).
  { destruct (Z_lt_le_dec 0 d) as [|Hd]; [assumption|].
    exfalso. destruct (Z.eq_dec d 0) as [->|]; [simpl in Hhi; lia|].
    rewrite Z.pow_neg_r in Hhi by lia. lia. }
  destruct (Z.lt_trichotomy (D p) d) as [Hlt|[Heq|Hgt]]; [exfalso|assumption|exfalso].
  - assert (2 ^ D p <= 2 ^ (d - 1)) by (apply Z.pow_le_mono_r; lia). lia.
  - assert (2 ^ d <= 2 ^ (D p - 1)) by (apply Z.pow_le_mono_r; lia). lia.
Qed.

Lemma iter_xO_spec (p q : positive) :
  Zpos (Pos.iter xO p q) = Zpos p * 2 ^ Zpos q.
Proof.
  induction q as [|q IH] using Pos.peano_ind.
  - simpl. lia.
  - rewrite Pos.iter_succ, Pos2Z.inj_xO, IH, Pos2Z.inj_succ, Z.pow_succ_r by lia. lia.
Qed.

Lemma iter_shr_1_exact (q : positive) (m : positive) :
  iter_pos shr_1 q (Build_shr_record (Zpos (Pos.iter xO m q)) false false)
  = Build_shr_record (Zpos m) false false.
Proof.
  revert m. induction q as [q IH|q IH|]; intros m; simpl.
  - rewrite IH. rewrite IH. reflexivity.
  - rewrite IH. rewrite IH. reflexivity.
  - reflexivity.
Qed.

Lemma digits_iter_xO (p q : positive) :
  D (Pos.iter xO p q) = D p + Zpos q.
Proof.
  apply digits2_pos_unique. rewrite iter_xO_spec.
  pose proof (digits2_pos_bounds p) as [Blo Bhi].
  assert (0 < D p) by (unfold D; lia).
  replace (D p + Zpos q - 1) with ((D p - 1) + Zpos q) by lia.
  rewrite !Z.pow_add_r by lia.
  assert (0 < 2 ^ Zpos q) by (apply Z.pow_pos_nonneg; lia).
  nia.
Qed.

Lemma shr_fexp_canonical (m : positive) (e : Z) :
  D m = 53 -> -1074 <= e ->
  shr_fexp prec emax (Zpos m) e loc_Exact
  = (Build_shr_record (Zpos m) false false, e).
Proof.
  unfold D. intros Hd He.
  unfold shr_fexp, Zdigits2, fexp, SpecFloat.emin, prec, emax.
  rewrite Hd.
  replace (Z.max (53 + e - 53) (3 - 1024 - 53) - e) with 0 by lia.
  reflexivity.
Qed.

Lemma shr_fexp_shifted (m q : positive) (e : Z) :
  D m = 53 -> -1074 <= e ->
  shr_fexp prec emax (Zpos (Pos.iter xO m q)) e loc_Exact
  = (Build_shr_record (Zpos m) false false, e + Zpos q).
Proof.
  intros Hd He.
  pose proof (digits_iter_xO m q) as Hdq. rewrite Hd in Hdq. unfold D in Hdq.
  unfold shr_fexp, Zdigits2, fexp, SpecFloat.emin, prec, emax.
  rewrite Hdq.
  replace (Z.max (53 + Zpos q + e - 53) (3 - 1024 - 53) - e) with (Zpos q) by lia.
  unfold shr, shr_record_of_loc. rewrite iter_shr_1_exact. reflexivity.
Qed.

Lemma binary_round_aux_canonical (s : bool) (m : positive) (e : Z) :
  D m = 53 -> -1074 <= e <= 971 ->
  binary_round_aux prec emax s (Zpos m) e loc_Exact = S754_finite s m e.
Proof.
  intros Hd He. unfold binary_round_aux.
  rewrite shr_fexp_canonical by lia.
  cbn [shr_m loc_of_shr_record round_nearest_even].
  rewrite shr_fexp_canonical by lia.
  cbn [shr_m]. unfold prec, emax.
  destruct (Z.leb_spec e (1024 - 53)); [reflexivity|lia].
Qed.

Lemma binary_round_aux_shifted (s : bool) (m q : positive) (e : Z) :
  D m = 53 -> -1074 <= e -> e + Zpos q <= 971 ->
  binary_round_aux prec emax s (Zpos (Pos.iter xO m q)) e loc_Exact
  = S754_finite s m (e + Zpos q).
Proof.
  intros Hd He1 He2. unfold binary_round_aux.
  rewrite shr_fexp_shifted by lia.
  cbn [shr_m loc_of_shr_record round_nearest_even].
  rewrite shr_fexp_canonical by lia.
  cbn [shr_m]. unfold prec, emax.
  destruct (Z.leb_spec (e + Zpos q) (1024 - 53)); [reflexivity|lia].
Qed.

Lemma intRep_range n m e : intRep n m e -> 1 <= n < 2 ^ 53.
Proof.
  intros (Hd & He & Hm).
  pose proof (digits2_pos_bounds m) as [Blo Bhi]. rewrite Hd in Blo, Bhi.
  assert (0 < 2 ^ (- e)) by (apply Z.pow_pos_nonneg; lia).
  assert (1 <= 2 ^ (- e)) by lia.
  change (2 ^ (53 - 1)) with 4503599627370496 in Blo.
  change (2 ^ 53) with 9007199254740992 in *.
  nia.
Qed.

Lemma intRep_unique n m e m' e' :
  intRep n m e -> intRep n m' e' -> m = m' /\ e = e'.
Proof.
  intros (Hd & He & Hm) (Hd' & He' & Hm').
  pose proof (digits2_pos_bounds m) as [Blo Bhi]. rewrite Hd in Blo, Bhi.
  pose proof (digits2_pos_bounds m') as [Blo' Bhi']. rewrite Hd' in Blo', Bhi'.
  change (2 ^ (53 - 1)) with 4503599627370496 in *.
  change (2 ^ 53) with 9007199254740992 in *.
  assert (e = e').
  { destruct (Z.lt_trichotomy e e') as [Hlt|[Heq|Hgt]]; [exfalso|assumption|exfalso].
    - replace (- e) with ((- e') + (e' - e)) in Hm by lia.
      rewrite Z.pow_add_r in Hm by lia.
      assert (2 ^ 1 <= 2 ^ (e' - e)) by (apply Z.pow_le_mono_r; lia).
      change (2 ^ 1) with 2 in *. nia.
    - replace (- e') with ((- e) + (e - e')) in Hm' by lia.
      rewrite Z.pow_add_r in Hm' by lia.
      assert (2 ^ 1 <= 2 ^ (e - e')) by (apply Z.pow_le_mono_r; lia).
      change (2 ^ 1) with 2 in *. nia. }
  subst e'. split; [|reflexivity].
  apply Pos2Z.inj. congruence.
Qed.

Lemma binary_round_int (s : bool) (p : positive) :
  Zpos p < 2 ^ 53 ->
  exists m e, binary_round prec emax s p 0 = S754_finite s m e
              /\ intRep (Zpos p) m e.
Proof.
  intros Hp.
  pose proof (digits2_pos_bounds p) as [Blo Bhi].
  assert (Hd : 1 <= D p <= 53).
  { split; [unfold D; lia|].
    destruct (Z_le_gt_dec (D p) 53) as [|Hgt]; [assumption|exfalso].
    assert (2 ^ 53 <= 2 ^ (D p - 1)) by (apply Z.pow_le_mono_r; lia). lia. }
  unfold binary_round, fexp, SpecFloat.emin, prec, emax, shl_align.
  fold (D p).
  replace (Z.max (D p + 0 - 53) (3 - 1024 - 53) - 0) with (D p - 53) by lia.
  replace (Z.max (D p + 0 - 53) (3 - 1024 - 53)) with (D p - 53) by lia.
  destruct (D p - 53) as [|q|q] eqn:Hq; [| lia |].
  - exists p, 0. split.
    + apply binary_round_aux_canonical; lia.
    + repeat split; try lia. 
  - assert (Hdq : D (Pos.iter xO p q) = 53) by (rewrite digits_iter_xO; lia).
    exists (Pos.iter xO p q), (Zneg q). split.
    + apply binary_round_aux_canonical; lia.
    + repeat split; try lia. rewrite iter_xO_spec. reflexivity.
Qed.

Lemma SFcompare_int n1 m1 e1 n2 m2 e2 :
  intRep n1 m1 e1 -> intRep n2 m2 e2 ->
  SFcompare (S754_finite false m1 e1) (S754_finite false m2 e2)
  = Some (n1 ?= n2).
Proof.
  intros H1 H2.
  pose proof (intRep_range _ _ _ H1) as Hn1.
  pose proof (intRep_range _ _ _ H2) as Hn2.
  destruct H1 as (Hd1 & He1 & Hm1), H2 as (Hd2 & He2 & Hm2).
  pose proof (digits2_pos_bounds m1) as [Blo1 Bhi1]. rewrite Hd1 in Blo1, Bhi1.
  pose proof (digits2_pos_bounds m2) as [Blo2 Bhi2]. rewrite Hd2 in Blo2, Bhi2.
  change (2 ^ (53 - 1)) with 4503599627370496 in *.
  change (2 ^ 53) with 9007199254740992 in *.
  simpl SFcompare. f_equal.
  destruct (Z.compare_spec e1 e2) as [Heq|Hlt|Hgt].
  - subst e2. fold (Pos.compare m1 m2). rewrite Pos2Z.inj_compare, Hm1, Hm2.
    assert (0 < 2 ^ (- e1)) by (apply Z.pow_pos_nonneg; lia).
    destruct (Z.compare_spec n1 n2) as [E|L|G].
    + subst. apply Z.compare_refl.
    + apply Z.compare_lt_iff. nia.
    + apply Z.compare_gt_iff. nia.
  - symmetry. apply Z.compare_lt_iff.
    replace (- e1) with ((- e2) + (e2 - e1)) in Hm1 by lia.
    rewrite Z.pow_add_r in Hm1 by lia.
    assert (HQ : 2 ^ 1 <= 2 ^ (e2 - e1)) by (apply Z.pow_le_mono_r; lia).
    assert (HP : 0 < 2 ^ (- e2)) by (apply Z.pow_pos_nonneg; lia).
    change (2 ^ 1) with 2 in *.
    set (P := 2 ^ (- e2)) in *. set (Q := 2 ^ (e2 - e1)) in *.
    destruct (Z_lt_le_dec n1 n2) as [|Hge]; [assumption|exfalso].
    assert (n2 * P <= n1 * P) by nia.
    assert (2 * (n1 * P) <= n1 * (P * Q)) by nia. lia.
  - symmetry. apply Z.compare_gt_iff.
    replace (- e2) with ((- e1) + (e1 - e2)) in Hm2 by lia.
    rewrite Z.pow_add_r in Hm2 by lia.
    assert (HQ : 2 ^ 1 <= 2 ^ (e1 - e2)) by (apply Z.pow_le_mono_r; lia).
    assert (HP : 0 < 2 ^ (- e1)) by (apply Z.pow_pos_nonneg; lia).
    change (2 ^ 1) with 2 in *.
    set (P := 2 ^ (- e1)) in *. set (Q := 2 ^ (e1 - e2)) in *.
    destruct (Z_lt_le_dec n2 n1) as [|Hge]; [lia|exfalso].
    assert (n1 * P <= n2 * P) by nia.
    assert (2 * (n2 * P) <= n2 * (P * Q)) by nia. lia.
Qed.

Lemma SF64add_int_one n m e :
  intRep n m e -> n + 1 < 2 ^ 53 ->
  exists m' e',
    SF64add (S754_finite false m e) (S754_finite false 4503599627370496 (-52))
    = S754_finite false m' e' /\ intRep (n + 1) m' e'.
Proof.
  intros Hrep Hn. pose proof (intRep_range _ _ _ Hrep) as Hn1.
  destruct Hrep as (Hd & He & Hm).
  unfold SF64add, SFadd.
  replace (Z.min e (-52)) with (-52) by lia.
  assert (Ha : exists a, fst (shl_align m e (-52)) = a /\ Zpos a = n * 2 ^ 52).
  { unfold shl_align. destruct (-52 - e) as [|q|q] eqn:Hq; [| lia |].
    - exists m. split; [reflexivity|]. rewrite Hm. f_equal. f_equal. lia.
    - exists (Pos.iter xO m q). split; [reflexivity|].
      rewrite iter_xO_spec, Hm, <- Z.mul_assoc, <- Z.pow_add_r by lia.
      f_equal. f_equal. lia. }
  destruct Ha as (a & -> & Ha).
  change (fst (shl_align 4503599627370496 (-52) (-52))) with 4503599627370496%positive.
  cbn [cond_Zopp]. change (Zpos a + 4503599627370496) with (Zpos (a + 4503599627370496)).
  cbn [binary_normalize].
  set (c := (a + 4503599627370496)%positive).
  assert (Hc : Zpos c = (n + 1) * 2 ^ 52) by (unfold c; rewrite Pos2Z.inj_add, Ha; change (2 ^ 52) with 4503599627370496; lia).
  pose proof (digits2_pos_bounds c) as [Clo Chi].
  assert (Hdc : 54 <= D c <= 105).
  { rewrite Hc in Clo, Chi. split.
    - destruct (Z_le_gt_dec 54 (D c)) as [|Hgt]; [assumption|exfalso].
      assert (Hle : 2 ^ D c <= 2 ^ 53) by (apply Z.pow_le_mono_r; lia).
      change (2 ^ 53) with 9007199254740992 in *.
      change (2 ^ 52) with 4503599627370496 in *. lia.
    - destruct (Z_le_gt_dec (D c) 105) as [|Hgt]; [assumption|exfalso].
      assert (Hle : 2 ^ 105 <= 2 ^ (D c - 1)) by (apply Z.pow_le_mono_r; lia).
      change (2 ^ 105) with 40564819207303340847894502572032 in *.
      change (2 ^ 53) with 9007199254740992 in *.
      change (2 ^ 52) with 4503599627370496 in *. lia. }
  set (k := D c - 53) in *.
  set (M := Z.to_pos ((n + 1) * 2 ^ (52 - k))).
  assert (Hpk : 0 < 2 ^ k) by (apply Z.pow_pos_nonneg; lia).
  assert (Hpj : 0 < 2 ^ (52 - k)) by (apply Z.pow_pos_nonneg; lia).
  assert (Hsplit : 2 ^ 52 = 2 ^ (52 - k) * 2 ^ k)
    by (rewrite <- Z.pow_add_r by lia; f_equal; lia).
  assert (HM : Zpos M = (n + 1) * 2 ^ (52 - k)) by (unfold M; rewrite Z2Pos.id; nia).
  assert (HcM : Zpos c = Zpos M * 2 ^ k) by (rewrite Hc, HM, Hsplit; ring).
  assert (HdM : D M = 53).
  { apply digits2_pos_unique.
    replace (D c - 1) with (52 + k) in Clo by lia.
    replace (D c) with (53 + k) in Chi by lia.
    rewrite Z.pow_add_r in Clo, Chi by lia.
    rewrite HcM in Clo, Chi.
    change (53 - 1) with 52. split; nia. }
  assert (Hiter : c = Pos.iter xO M (Z.to_pos k)).
  { apply Pos2Z.inj. rewrite iter_xO_spec, Z2Pos.id by lia. exact HcM. }
  exists M, (-52 + k). split.
  - unfold binary_round, fexp, SpecFloat.emin, prec, emax, shl_align.
    fold (D c).
    replace (Z.max (D c + -52 - 53) (3 - 1024 - 53) - -52) with (Zpos (Z.to_pos k))
      by (rewrite Z2Pos.id; lia).
    rewrite Hiter at 1.
    rewrite binary_round_aux_shifted by (rewrite ?Z2Pos.id; lia).
    rewrite Z2Pos.id by lia. reflexivity.
  - repeat split; try lia. rewrite HM. f_equal. f_equal. lia.
Qed.


End ExactRounding.

(** ** Binary64 facts: integral Numbers, [Math.floor] and [Math.max] *)

Section IntegralNumbers.

Local Open Scope float_scope.

Lemma intRep_valid s n m e :
  intRep n m e -> valid_binary (S754_finite s m e) = true.
Proof.
  intros (Hd & He & _). unfold D in Hd.
  unfold SpecFloat.valid_binary, bounded, canonical_mantissa, fexp,
    SpecFloat.emin, prec, emax.
  rewrite Hd. apply andb_true_intro. split.
  - apply Z.eqb_eq. lia.
  - apply Z.leb_le. lia.
Qed.

Lemma Prim2SF_Z2F (n : Z) :
  (- 2 ^ 53 < n < 2 ^ 53)%Z -> IntSF n (Prim2SF (Z2F n)).
Proof.
  intros Hn. unfold Z2F. destruct n as [|p|p]; cbn [binary_normalize IntSF].
  - reflexivity.
  - destruct (binary_round_int false p) as (m & e & -> & Hrep); [lia|].
    rewrite Prim2SF_SF2Prim by (eapply intRep_valid; eassumption).
    eauto.
  - destruct (binary_round_int true p) as (m & e & -> & Hrep); [lia|].
    rewrite Prim2SF_SF2Prim by (eapply intRep_valid; eassumption).
    eauto.
Qed.

Lemma Z2F_compare (i j : Z) :
  (0 <= i < 2 ^ 53)%Z -> (0 <= j < 2 ^ 53)%Z ->
  SFcompare (Prim2SF (Z2F i)) (Prim2SF (Z2F j)) = Some (i ?= j)%Z.
Proof.
  intros Hi Hj.
  pose proof (Prim2SF_Z2F i ltac:(lia)) as Ri.
  pose proof (Prim2SF_Z2F j ltac:(lia)) as Rj.
  destruct i as [|p|p], j as [|q|q]; try lia; cbn [IntSF] in Ri, Rj.
  - rewrite Ri. reflexivity.
  - destruct Rj as (m & e & -> & _). rewrite Ri. reflexivity.
  - destruct Ri as (m & e & -> & _). rewrite Rj. reflexivity.
  - destruct Ri as (m & e & -> & Hi'), Rj as (m' & e' & -> & Hj').
    eapply SFcompare_int; eassumption.
Qed.

Lemma Z2F_leb (i j : Z) :
  (0 <= i < 2 ^ 53)%Z -> (0 <= j < 2 ^ 53)%Z ->
  (Z2F i <=? Z2F j) = (i <=? j)%Z.
Proof.
  intros Hi Hj. rewrite leb_spec. unfold SFleb. rewrite Z2F_compare by assumption.
  unfold Z.leb. destruct (i ?= j)%Z; reflexivity.
Qed.

Lemma Z2F_ltb (i j : Z) :
  (0 <= i < 2 ^ 53)%Z -> (0 <= j < 2 ^ 53)%Z ->
  (Z2F i <? Z2F j) = (i <? j)%Z.
Proof.
  intros Hi Hj. rewrite ltb_spec. unfold SFltb. rewrite Z2F_compare by assumption.
  unfold Z.ltb. destruct (i ?= j)%Z; reflexivity.
Qed.

Lemma Z2F_inj (i j : Z) :
  (0 <= i < 2 ^ 53)%Z -> (0 <= j < 2 ^ 53)%Z -> Z2F i = Z2F j -> i = j.
Proof.
  intros Hi Hj Heq.
  pose proof (Z2F_leb i j Hi Hj) as Hij. pose proof (Z2F_leb j i Hj Hi) as Hji.
  pose proof (Z2F_leb j j Hj Hj) as Hjj. rewrite Z.leb_refl in Hjj.
  rewrite Heq, Hjj in Hij. rewrite Heq, Hjj in Hji.
  symmetry in Hij, Hji. apply Z.leb_le in Hij, Hji. lia.
Qed.

Lemma Z2F_succ (i : Z) :
  (1 <= i)%Z -> (i + 1 < 2 ^ 53)%Z -> Z2F i + 1 = Z2F (i + 1).
Proof.
  intros Hi Hi'. apply Prim2SF_inj. rewrite add_spec.
  pose proof (Prim2SF_Z2F i ltac:(lia)) as Ri.
  pose proof (Prim2SF_Z2F (i + 1) ltac:(lia)) as Rj.
  destruct i as [|p|p]; try lia. cbn [IntSF] in Ri.
  destruct (Z.pos p + 1)%Z as [|q|q] eqn:Hq; try lia. cbn [IntSF] in Rj.
  destruct Ri as (m & e & -> & Hrep), Rj as (m' & e' & -> & Hrep').
  change (Prim2SF 1) with (S754_finite false 4503599627370496 (-52)).
  destruct (SF64add_int_one _ _ _ Hrep ltac:(lia)) as (m'' & e'' & -> & Hrep'').
  rewrite Hq in Hrep''.
  destruct (intRep_unique _ _ _ _ _ Hrep' Hrep'') as [-> ->]. reflexivity.
Qed.

Lemma SFcompare_finite_refl s m e :
  SFcompare (S754_finite s m e) (S754_finite s m e) = Some Eq.
Proof.
  destruct s; simpl; rewrite Z.compare_refl;
    fold (Pos.compare m m); rewrite Pos.compare_refl; reflexivity.
Qed.

Lemma finite_is_nan (x : float) s m e :
  Prim2SF x = S754_finite s m e -> is_nan x = false.
Proof.
  intros Hx. unfold is_nan. rewrite eqb_spec, Hx. unfold SFeqb.
  rewrite SFcompare_finite_refl. reflexivity.
Qed.

Lemma finite_is_finite (x : float) s m e :
  Prim2SF x = S754_finite s m e -> is_finite x = true.
Proof.
  intros Hx. unfold is_finite. rewrite (finite_is_nan x s m e Hx).
  unfold is_infinity. rewrite eqb_spec, abs_spec, Hx. reflexivity.
Qed.

Lemma is_finite_cases (x : float) :
  is_finite x = true ->
  x = zero \/ x = neg_zero \/ exists s m e, Prim2SF x = S754_finite s m e.
Proof.
  intros Hfin. pose proof (SF2Prim_Prim2SF x) as E.
  destruct (Prim2SF x) as [[]|[]| |s m e].
  - right. left. symmetry. exact E.
  - left. symmetry. exact E.
  - rewrite <- E in Hfin. discriminate Hfin.
  - rewrite <- E in Hfin. discriminate Hfin.
  - rewrite <- E in Hfin. discriminate Hfin.
  - right. right. eauto.
Qed.

Lemma valid_mantissa_bound (x : float) s m e :
  Prim2SF x = S754_finite s m e -> (Zpos m < 2 ^ 53)%Z.
Proof.
  intros Hx. pose proof (Prim2SF_valid x) as Hv. rewrite Hx in Hv.
  unfold SpecFloat.valid_binary, bounded, canonical_mantissa, fexp,
    SpecFloat.emin, prec, emax in Hv.
  apply andb_prop in Hv. destruct Hv as [Hc _]. apply Z.eqb_eq in Hc.
  fold (D m) in Hc.
  pose proof (digits2_pos_bounds m) as [_ Bhi].
  assert (2 ^ D m <= 2 ^ 53)%Z by (apply Z.pow_le_mono_r; lia). lia.
Qed.

Lemma floor_quotient_bound (s : bool) (m : positive) (e : Z) :
  (Zpos m < 2 ^ 53)%Z -> (e < 0)%Z ->
  (- 2 ^ 53 < cond_Zopp s (Zpos m) / 2 ^ (- e) < 2 ^ 53)%Z.
Proof.
  intros Hm He.
  assert (HP : (2 ^ 1 <= 2 ^ (- e))%Z) by (apply Z.pow_le_mono_r; lia).
  change (2 ^ 1)%Z with 2%Z in HP. change (2 ^ 53)%Z with 9007199254740992%Z in *.
  set (P := (2 ^ (- e))%Z) in *.
  pose proof (Z.mul_div_le (cond_Zopp s (Zpos m)) P ltac:(lia)) as Hlo.
  pose proof (Z.mul_succ_div_gt (cond_Zopp s (Zpos m)) P ltac:(lia)) as Hhi.
  set (k := (cond_Zopp s (Zpos m) / P)%Z) in *.
  destruct s; cbn [cond_Zopp] in *; nia.
Qed.

Lemma Z2F_is_nan (k : Z) :
  (- 2 ^ 53 < k < 2 ^ 53)%Z -> is_nan (Z2F k) = false.
Proof.
  intros Hk. pose proof (Prim2SF_Z2F k Hk) as R.
  destruct k as [|p|p]; cbn [IntSF] in R.
  - reflexivity.
  - destruct R as (m & e & R & _). exact (finite_is_nan _ _ _ _ R).
  - destruct R as (m & e & R & _). exact (finite_is_nan _ _ _ _ R).
Qed.

Lemma Math_max_one_Z2F (k : Z) :
  (- 2 ^ 53 < k < 2 ^ 53)%Z -> Math_max 1 (Z2F k) = Z2F (Z.max 1 k).
Proof.
  intros Hk. unfold Math_max. rewrite (Z2F_is_nan k Hk).
  change (is_nan 1 || false) with false. cbv iota.
  destruct k as [|p|p].
  - reflexivity.
  - change 1 with (Z2F 1).
    rewrite !Z2F_ltb by (change (2 ^ 53)%Z with 9007199254740992%Z in *; lia).
    destruct (Z.ltb_spec 1 (Zpos p)).
    + f_equal. lia.
    + destruct (Z.ltb_spec (Zpos p) 1); [lia|].
      change (get_sign (Z2F 1)) with false. cbv iota. f_equal. lia.
  - pose proof (Prim2SF_Z2F _ Hk) as (m & e & R & _).
    rewrite !ltb_spec, R.
    change (Prim2SF 1) with (S754_finite false 4503599627370496 (-52)).
    reflexivity.
Qed.

Lemma horizon_cases (y : float) :
  is_finite y = true ->
  (exists n, (1 <= n < 2 ^ 53)%Z /\ Math_max 1 (Math_floor y) = Z2F n)
  \/ (Math_max 1 (Math_floor y) = y
      /\ exists m e, Prim2SF y = S754_finite false m e /\ (0 <= e)%Z).
Proof.
  intros Hfin.
  destruct (is_finite_cases y Hfin) as [-> | [-> | (s & m & e & Hy)]].
  - left. exists 1%Z. split; [split; [lia|reflexivity]|reflexivity].
  - left. exists 1%Z. split; [split; [lia|reflexivity]|reflexivity].
  - unfold Math_floor. rewrite Hy. destruct (Z.leb_spec 0 e) as [He|He].
    + unfold Math_max. rewrite (finite_is_nan _ _ _ _ Hy).
      change (is_nan 1 || false) with false. cbv iota.
      rewrite !ltb_spec, Hy.
      change (Prim2SF 1) with (S754_finite false 4503599627370496 (-52)).
      destruct s.
      * left. exists 1%Z. split; [split; [lia|reflexivity]|reflexivity].
      * right. unfold SFltb. cbn [SFcompare].
        destruct (Z.compare_spec (-52) e); try lia. split; eauto.
    + left.
      pose proof (floor_quotient_bound s m e (valid_mantissa_bound _ _ _ _ Hy) He) as Hk.
      rewrite Math_max_one_Z2F by assumption.
      eexists. split; [|reflexivity].
      change (2 ^ 53)%Z with 9007199254740992%Z in *. lia.
Qed.

(** A horizon within the array limit is an integral Number from [1] to
    [4294967294], whatever was entered. *)
Lemma horizon_within (y : float) :
  (Math_max 1 (Math_floor y) <=? 4294967294) = true ->
  exists n, (1 <= n <= 4294967294)%Z /\ Math_max 1 (Math_floor y) = Z2F n.
Proof.
  intros Hle. pose proof (SF2Prim_Prim2SF y) as E.
  destruct (Prim2SF y) as [[]|[]| |s m e] eqn:Hy.
  - rewrite <- E. exists 1%Z. split; [lia|reflexivity].
  - rewrite <- E. exists 1%Z. split; [lia|reflexivity].
  - rewrite <- E. exists 1%Z. split; [lia|reflexivity].
  - rewrite <- E in Hle. discriminate Hle.
  - rewrite <- E in Hle. discriminate Hle.
  - destruct (horizon_cases y (finite_is_finite _ _ _ _ Hy))
      as [(n & Hn & Hh)|(Hh & m' & e' & Hy' & He)].
    + exists n. split; [|exact Hh].
      rewrite Hh in Hle. change 4294967294 with (Z2F 4294967294) in Hle.
      rewrite Z2F_leb in Hle
        by (change (2 ^ 53)%Z with 9007199254740992%Z in *; lia).
      apply Z.leb_le in Hle. lia.
    + exfalso. rewrite Hh, leb_spec, Hy' in Hle.
      set (c := Prim2SF 4294967294) in Hle. vm_compute in c. subst c.
      unfold SFleb in Hle. cbn [SFcompare] in Hle.
      destruct (Z.compare_spec e' (-21)); try lia; discriminate Hle.
Qed.

End IntegralNumbers.

(** ** The ROI calculator *)

Section ROIProperties.

Local Open Scope float_scope.

(** C1. For every input, [calcROI] returns a total investment equal to
    price plus renovation cost and an annual net income equal to twelve
    monthly rents minus the sum of management fee and property tax (with the
    annual rent and the annual costs as its two parts). *)
Theorem calcROI_totals (values : Values.t) :
  ROIResult.invest (calcROI values)
    = Values.price values + Values.reno values
  /\ ROIResult.annualNet (calcROI values)
    = Values.rent values * 12 - (Values.mgmt values + Values.tax values)
  /\ ROIResult.annualNet (calcROI values)
    = ROIResult.annualRent (calcROI values)
      - ROIResult.annualCosts (calcROI values).
Proof.
  unfold calcROI. cbn [ROIResult.invest ROIResult.annualNet
    ROIResult.annualRent ROIResult.annualCosts]. repeat split.
Qed.

(** The traced calculator computes what [calcROI] computes. *)
Lemma calcROI_traced_result (values : Values.t) :
  fst (calcROI_traced values) = calcROI values.
Proof.
  unfold calcROI_traced, calcROI.
  destruct (Values.price values + Values.reno values =? 0);
    destruct (0 <? Values.rent values * 12
                   - (Values.mgmt values + Values.tax values));
    reflexivity.
Qed.

Lemma calcROI_divisions_eq (values : Values.t) :
  let invest := Values.price values + Values.reno values in
  let annualNet :=
    Values.rent values * 12 - (Values.mgmt values + Values.tax values) in
  calcROI_divisions values
  = (if invest =? 0 then [] else [mkDivision annualNet invest])
    ++ (if 0 <? annualNet then [mkDivision invest annualNet] else []).
Proof.
  unfold calcROI_divisions, calcROI_traced.
  destruct (Values.price values + Values.reno values =? 0);
    destruct (0 <? Values.rent values * 12
                   - (Values.mgmt values + Values.tax values));
    reflexivity.
Qed.

(** No division that [calcROI] evaluates has a zero divisor. *)
Lemma calcROI_divisions_nonzero (values : Values.t) (d : Division) :
  In d (calcROI_divisions values) -> (divisor d =? 0) = false.
Proof.
  rewrite calcROI_divisions_eq. cbv zeta. intros Hin.
  apply in_app_or in Hin. destruct Hin as [Hin|Hin].
  - destruct (Values.price values + Values.reno values =? 0) eqn:Hz;
      [contradiction|].
    destruct Hin as [<-|[]]. exact Hz.
  - destruct (0 <? Values.rent values * 12
                   - (Values.mgmt values + Values.tax values)) eqn:Hpos;
      [|contradiction].
    destruct Hin as [<-|[]]. cbn [divisor].
    apply ltb_true_eqb_false. exact Hpos.
Qed.

(** A Number above zero is not equal to a zero. *)
Lemma positive_neq_zero (x z : float) :
  (0 <? x) = true -> (z =? 0) = true -> (x =? z) = false.
Proof.
  rewrite ltb_spec, !eqb_spec.
  change (Prim2SF 0) with (S754_zero false). unfold SFeqb, SFltb.
  destruct (Prim2SF x) as [[]|[]| |[] m e];
    destruct (Prim2SF z) as [[]|[]| |[] m' e']; cbn; congruence.
Qed.

(** C2. [roi] is [0] when the total investment is zero and
    [annualNet / invest * 100] otherwise.  Of the divisions the call
    evaluates none has a zero divisor, and when the total investment is zero
    none divides by it. *)
Theorem calcROI_roi (values : Values.t) :
  let res := calcROI values in
  ((ROIResult.invest res =? 0) = true ->
     ROIResult.roi res = 0
     /\ forall d, In d (calcROI_divisions values) ->
                  (divisor d =? ROIResult.invest res) = false)
  /\ ((ROIResult.invest res =? 0) = false ->
     ROIResult.roi res
       = ROIResult.annualNet res / ROIResult.invest res * 100)
  /\ fst (calcROI_traced values) = res
  /\ (forall d, In d (calcROI_divisions values) -> (divisor d =? 0) = false).
Proof.
  cbv zeta. conjuncts.
  - unfold calcROI. cbn [ROIResult.invest ROIResult.roi]. intros Hz.
    rewrite Hz. split; [reflexivity|].
    intros d Hin. rewrite calcROI_divisions_eq in Hin. cbv zeta in Hin.
    rewrite Hz in Hin. cbn [app] in Hin.
    destruct (0 <? Values.rent values * 12
                   - (Values.mgmt values + Values.tax values)) eqn:Hpos;
      [|contradiction].
    destruct Hin as [<-|[]]. cbn [divisor].
    exact (positive_neq_zero _ _ Hpos Hz).
  - unfold calcROI. cbn [ROIResult.invest ROIResult.roi ROIResult.annualNet].
    intros Hz. rewrite Hz. reflexivity.
  - apply calcROI_traced_result.
  - apply calcROI_divisions_nonzero.
Qed.

(** C3. [payback] is [invest / annualNet] when the annual net income is
    above zero, and positive infinity whenever it is at most zero; the
    payback card then shows the dash. *)
Theorem calcROI_payback (values : Values.t) :
  let res := calcROI values in
  ((0 <? ROIResult.annualNet res) = true ->
     ROIResult.payback res = ROIResult.invest res / ROIResult.annualNet res)
  /\ ((ROIResult.annualNet res <=? 0) = true ->
     ROIResult.payback res = Infinity
     /\ paybackCard res = SetText "—").
Proof.
  cbv zeta. unfold paybackCard, calcROI.
  cbn [ROIResult.invest ROIResult.payback ROIResult.annualNet]. split.
  - intros Hpos. rewrite Hpos. reflexivity.
  - intros Hle. rewrite (leb_true_ltb_false _ _ Hle). split; reflexivity.
Qed.

End ROIProperties.

(** ** The NPV calculator: what a returned table holds *)

Section NPVRows.

Local Open Scope float_scope.

Variable Math_pow : float -> float -> float.

Lemma last_cons_default {A : Type} (a d : A) (l : list A) :
  last (a :: l) d = last l a.
Proof.
  revert a d. induction l as [|b l IH]; intros a d; [reflexivity|].
  change (last (a :: b :: l) d) with (last (b :: l) d).
  rewrite !IH. reflexivity.
Qed.

Lemma last_map {A B : Type} (f : A -> B) (l : list A) (d : A) :
  last (map f l) (f d) = f (last l d).
Proof.
  induction l as [|a [|b l] IH]; try reflexivity. exact IH.
Qed.

Lemma sumPV_snoc (rows : list CashFlowRow.t) (row : CashFlowRow.t) :
  sumPV (rows ++ [row]) = sumPV rows + CashFlowRow.pv row.
Proof. unfold sumPV. rewrite fold_left_app. reflexivity. Qed.

Lemma cumulativeOK_snoc (rows : list CashFlowRow.t) (row : CashFlowRow.t) :
  cumulativeOK rows ->
  CashFlowRow.cumulative row = sumPV rows + CashFlowRow.pv row ->
  cumulativeOK (rows ++ [row]).
Proof.
  intros Hok Hrow k x Hk.
  destruct (Nat.lt_ge_cases k (List.length rows)) as [Hlt|Hge].
  - rewrite nth_error_app1 in Hk by assumption.
    rewrite firstn_app.
    replace (S k - List.length rows)%nat with 0%nat by lia.
    rewrite firstn_O, app_nil_r. apply Hok. exact Hk.
  - rewrite nth_error_app2 in Hk by assumption.
    destruct (k - List.length rows)%nat as [|j] eqn:Hj.
    + injection Hk as <-.
      rewrite firstn_all2 by (rewrite length_app; simpl; lia).
      rewrite sumPV_snoc. exact Hrow.
    + destruct j; discriminate Hk.
Qed.

(** The rows that continue a running sum keep the table's sums right. *)
Lemma runningFrom_sums (new pre : list CashFlowRow.t) (acc : float) :
  acc = sumPV pre -> cumulativeOK pre -> runningFrom acc new ->
  cumulativeOK (pre ++ new)
  /\ last (map CashFlowRow.cumulative new) acc = sumPV (pre ++ new).
Proof.
  revert pre acc. induction new as [|row new IH]; intros pre acc Hacc Hok Hrun.
  - rewrite app_nil_r. split; assumption.
  - destruct Hrun as [Hrow Hrun].
    replace (pre ++ row :: new) with ((pre ++ [row]) ++ new)
      by (rewrite <- app_assoc; reflexivity).
    cbn [map]. rewrite last_cons_default.
    apply IH; [| |exact Hrun].
    + rewrite sumPV_snoc, <- Hacc. exact Hrow.
    + apply cumulativeOK_snoc; [exact Hok|]. rewrite <- Hacc. exact Hrow.
Qed.

(** Whatever the loop returns is what it was given followed by discounted
    rows that continue the running sum. *)
Lemma calcNPV_loop_sound (fuel : nat) (years r netAnnual : float) :
  forall t cumulative rows cumulative' rows',
    calcNPV_loop Math_pow fuel years r netAnnual t cumulative rows
      = Returns (cumulative', rows') ->
    exists new,
      rows' = rows ++ new
      /\ Forall (discounted Math_pow r netAnnual) new
      /\ runningFrom cumulative new
      /\ cumulative' = last (map CashFlowRow.cumulative new) cumulative.
Proof.
  induction fuel as [|fuel IH]; intros t c rows c' rows' Hrun;
    [discriminate Hrun|].
  cbn [calcNPV_loop] in Hrun. destruct (t <=? years).
  - destruct (push rows _) as [rows1|] eqn:Hpush; [|discriminate Hrun].
    unfold push in Hpush.
    destruct (N.of_nat (List.length rows) <? MAX_ARRAY_LENGTH)%N;
      [|discriminate Hpush].
    injection Hpush as <-.
    destruct (IH _ _ _ _ _ Hrun) as (new & -> & Hdisc & Hsum & ->).
    eexists (_ :: new). rewrite <- app_assoc. split; [reflexivity|].
    split; [|split].
    + constructor; [|exact Hdisc]. repeat split.
    + split; [reflexivity|exact Hsum].
    + cbn [map]. rewrite last_cons_default. reflexivity.
  - injection Hrun as <- <-. exists []. rewrite app_nil_r.
    repeat split. constructor.
Qed.

(** The shape of every table [calcNPV] returns. *)
Lemma calcNPV_sound (fuel : nat) (values : Values.t) (res : NPVResult.t) :
  calcNPV Math_pow fuel values = Returns res ->
  let invest := Values.price values + Values.reno values in
  let netAnnual :=
    Values.rent values * 12 - (Values.mgmt values + Values.tax values) in
  let r := Math_max (-0.99) (Values.discount values / 100) in
  exists rest,
    NPVResult.rows res
      = {| CashFlowRow.year := 0; CashFlowRow.net := - invest;
           CashFlowRow.factor := 1; CashFlowRow.pv := - invest;
           CashFlowRow.cumulative := 0 + - invest |} :: rest
    /\ Forall (discounted Math_pow r netAnnual) rest
    /\ runningFrom (0 + - invest) rest
    /\ NPVResult.npv res
       = last (map CashFlowRow.cumulative rest) (0 + - invest)
    /\ NPVResult.discountPct res = Values.discount values
    /\ NPVResult.years res = Math_max 1 (Math_floor (Values.years values)).
Proof.
  unfold calcNPV, push. intros Hrun. cbv zeta in Hrun |- *.
  change (N.of_nat (@List.length CashFlowRow.t []) <? MAX_ARRAY_LENGTH)%N
    with true in Hrun.
  cbv iota in Hrun. cbn [app] in Hrun.
  destruct (calcNPV_loop _ _ _ _ _ _ _ _) as [[c rows]| |] eqn:Hloop;
    try discriminate Hrun.
  injection Hrun as <-.
  destruct (calcNPV_loop_sound _ _ _ _ _ _ _ _ _ Hloop)
    as (new & -> & Hdisc & Hsum & ->).
  exists new. cbn [NPVResult.rows NPVResult.npv NPVResult.discountPct
    NPVResult.years app]. repeat split; assumption.
Qed.

End NPVRows.

(** ** The NPV calculator: how long the loop runs *)

Section NPVTermination.

Local Open Scope float_scope.

Variable Math_pow : float -> float -> float.

Lemma push_within_limit {A : Type} (arr : list A) (x : A) :
  (Z.of_nat (List.length arr) <= 4294967294)%Z ->
  push arr x = Some (arr ++ [x]).
Proof.
  intros Hlen. unfold push.
  destruct (N.ltb_spec (N.of_nat (List.length arr)) MAX_ARRAY_LENGTH) as [|Hge];
    [reflexivity|].
  unfold MAX_ARRAY_LENGTH in Hge. lia.
Qed.

Lemma push_at_limit {A : Type} (arr : list A) (x : A) :
  Z.of_nat (List.length arr) = 4294967295%Z -> push arr x = None.
Proof.
  intros Hlen. unfold push.
  destruct (N.ltb_spec (N.of_nat (List.length arr)) MAX_ARRAY_LENGTH) as [Hlt|];
    [|reflexivity].
  unfold MAX_ARRAY_LENGTH in Hlt. lia.
Qed.

(** With the counter at [i] and [i - 1] yearly rows pushed, the loop pushes
    the rows of the years [i], ..., [n] and returns, whatever fuel above the
    number of turns it is given. *)
Lemma calcNPV_loop_runs (r netAnnual : float) (n : Z) :
  (1 <= n <= 4294967294)%Z ->
  forall (k : nat) (i : Z) (cumulative : float) (rows : list CashFlowRow.t),
    (1 <= i)%Z -> (i + Z.of_nat k = n + 1)%Z ->
    Z.of_nat (List.length rows) = i ->
    exists out,
      (forall fuel, (k < fuel)%nat ->
         calcNPV_loop Math_pow fuel (Z2F n) r netAnnual (Z2F i) cumulative rows
           = Returns out)
      /\ map CashFlowRow.year (snd out)
         = map CashFlowRow.year rows
           ++ map (fun j => Z2F (Z.of_nat j)) (seq (Z.to_nat i) k).
Proof.
  intros Hn. induction k as [|k IH]; intros i c rows Hi Hk Hlen.
  - exists (c, rows). split.
    + intros [|fuel] Hfuel; [lia|]. cbn [calcNPV_loop].
      rewrite Z2F_leb by (change (2 ^ 53)%Z with 9007199254740992%Z; lia).
      destruct (Z.leb_spec i n); [lia|reflexivity].
    + cbn [snd seq map]. rewrite app_nil_r. reflexivity.
  - set (factor := 1 / Math_pow (1 + r) (Z2F i)).
    set (row := {| CashFlowRow.year := Z2F i; CashFlowRow.net := netAnnual;
                   CashFlowRow.factor := factor;
                   CashFlowRow.pv := netAnnual * factor;
                   CashFlowRow.cumulative := c + netAnnual * factor |}).
    destruct (IH (i + 1)%Z (c + netAnnual * factor) (rows ++ [row]))
      as (out & Hout & Hyears); try lia.
    { rewrite length_app. cbn [List.length]. lia. }
    exists out. split.
    + intros [|fuel] Hfuel; [lia|]. cbn [calcNPV_loop].
      rewrite Z2F_leb by (change (2 ^ 53)%Z with 9007199254740992%Z; lia).
      destruct (Z.leb_spec i n); [|lia].
      fold factor. fold row.
      rewrite push_within_limit by lia.
      rewrite Z2F_succ by (change (2 ^ 53)%Z with 9007199254740992%Z; lia).
      apply Hout. lia.
    + rewrite Hyears, map_app, <- app_assoc. f_equal.
      cbn [seq map app CashFlowRow.year row]. rewrite Z2Nat.id by lia.
      f_equal. f_equal. f_equal. lia.
Qed.

(** The years [0], ..., [n] are strictly ascending Numbers. *)
Lemma yearsUpTo_sorted (n : nat) :
  (Z.of_nat n < 2 ^ 53)%Z ->
  StronglySorted (fun a b => (a <? b) = true) (yearsUpTo n).
Proof.
  unfold yearsUpTo. intros Hn.
  assert (Hgen : forall len a, (a + len <= S n)%nat ->
            StronglySorted (fun a b => (a <? b) = true)
              (map (fun i => Z2F (Z.of_nat i)) (seq a len))).
  { induction len as [|len IH]; intros a Ha; cbn [seq map]; constructor.
    - apply IH. lia.
    - apply Forall_forall. intros y Hy. apply in_map_iff in Hy.
      destruct Hy as (j & <- & Hj). apply in_seq in Hj.
      rewrite Z2F_ltb by lia. apply Z.ltb_lt. lia. }
  apply Hgen. lia.
Qed.

(** Within the array limit [calcNPV] returns, and the years of its rows are
    [0], [1], ..., up to the horizon. *)
Lemma calcNPV_returns (values : Values.t) :
  (horizonYears values <=? 4294967294) = true ->
  exists n : nat,
    (1 <= Z.of_nat n <= 4294967294)%Z
    /\ horizonYears values = Z2F (Z.of_nat n)
    /\ exists res,
         (forall fuel, (n < fuel)%nat ->
            calcNPV Math_pow fuel values = Returns res)
         /\ map CashFlowRow.year (NPVResult.rows res) = yearsUpTo n.
Proof.
  unfold horizonYears. intros Hle.
  destruct (horizon_within _ Hle) as (n & Hn & Hh).
  exists (Z.to_nat n). rewrite Z2Nat.id by lia.
  split; [lia|]. split; [exact Hh|].
  unfold calcNPV, push.
  change (N.of_nat (@List.length CashFlowRow.t []) <? MAX_ARRAY_LENGTH)%N
    with true. cbv iota zeta. cbn [app]. rewrite Hh.
  match goal with
  | |- context [calcNPV_loop _ _ _ ?r ?na _ ?c ?rows] =>
      destruct (calcNPV_loop_runs r na n ltac:(lia) (Z.to_nat n) 1%Z c rows)
        as ([c' rows'] & Hout & Hyears); try (cbn [List.length]; lia)
  end.
  eexists. split.
  - intros fuel Hfuel. pose proof (Hout fuel Hfuel) as E.
    change (Z2F 1) with 1 in E. rewrite E. reflexivity.
  - cbn [NPVResult.rows]. cbn [snd] in Hyears. rewrite Hyears.
    unfold yearsUpTo. cbn [map seq CashFlowRow.year app].
    replace (Z.to_nat 1) with 1%nat by reflexivity. reflexivity.
Qed.

(** The row of year [t] in a table whose years are [0], ..., [n]. *)
Lemma row_of_year (rows : list CashFlowRow.t) (n t : nat) :
  map CashFlowRow.year rows = yearsUpTo n -> (t <= n)%nat ->
  exists row, nth_error rows t = Some row
              /\ CashFlowRow.year row = Z2F (Z.of_nat t).
Proof.
  intros Hyears Ht.
  assert (Hlen : List.length rows = S n).
  { rewrite <- (length_map CashFlowRow.year), Hyears. unfold yearsUpTo.
    rewrite length_map, length_seq. reflexivity. }
  destruct (nth_error rows t) as [row|] eqn:Hrow.
  - exists row. split; [reflexivity|].
    pose proof (map_nth_error CashFlowRow.year _ _ Hrow) as Hy.
    rewrite Hyears in Hy. unfold yearsUpTo in Hy.
    rewrite (map_nth_error _ t (seq 0 (S n)) (d := t)) in Hy.
    + injection Hy as <-. reflexivity.
    + rewrite (nth_error_nth' _ 0%nat) by (rewrite length_seq; lia).
      rewrite seq_nth by lia. reflexivity.
  - apply nth_error_None in Hrow. lia.
Qed.

End NPVTermination.

(** ** The NPV calculator: the claims *)

Section NPVProperties.

Local Open Scope float_scope.

Variable Math_pow : float -> float -> float.

(** Within the array limit some fuel makes [calcNPV] return. *)
Lemma calcNPV_terminates (values : Values.t) :
  (horizonYears values <=? 4294967294) = true ->
  exists fuel res, calcNPV Math_pow fuel values = Returns res.
Proof.
  intros Hle.
  destruct (calcNPV_returns Math_pow values Hle)
    as (n & _ & _ & res & Hres & _).
  exists (S n), res. apply Hres. lia.
Qed.

(** C4. The effective rate is [r = Math.max(-0.99, discount / 100)].  Every
    row after row 0 of a returned table has the constant net cash flow, the
    factor [1 / Math.pow(1 + r, year)] and the present value
    [netAnnual * factor]; within the array limit the table is returned and
    has such a row for every year [t] from [1] to the horizon.  A discount
    of -150 percent gives [r = -0.99]. *)
Theorem calcNPV_discounting (values : Values.t) :
  let r := Math_max (-0.99) (Values.discount values / 100) in
  let netAnnual :=
    Values.rent values * 12 - (Values.mgmt values + Values.tax values) in
  (forall fuel res,
      calcNPV Math_pow fuel values = Returns res ->
      exists row0 rest,
        NPVResult.rows res = row0 :: rest
        /\ Forall (discounted Math_pow r netAnnual) rest)
  /\ ((horizonYears values <=? 4294967294) = true ->
      exists (n : nat) (res : NPVResult.t),
        horizonYears values = Z2F (Z.of_nat n)
        /\ (forall fuel, (n < fuel)%nat ->
              calcNPV Math_pow fuel values = Returns res)
        /\ forall t : nat, (1 <= t <= n)%nat ->
             exists row,
               nth_error (NPVResult.rows res) t = Some row
               /\ CashFlowRow.year row = Z2F (Z.of_nat t)
               /\ CashFlowRow.factor row
                  = 1 / Math_pow (1 + r) (Z2F (Z.of_nat t))
               /\ CashFlowRow.pv row = netAnnual * CashFlowRow.factor row)
  /\ (Values.discount values = -150 -> r = -0.99).
Proof.
  cbv zeta. conjuncts.
  - intros fuel res Hres.
    destruct (calcNPV_sound Math_pow fuel values res Hres)
      as (rest & Hrows & Hdisc & _).
    eauto.
  - intros Hle.
    destruct (calcNPV_returns Math_pow values Hle)
      as (n & _ & Hh & res & Hres & Hyears).
    exists n, res. conjuncts; [exact Hh|exact Hres|].
    intros t Ht.
    destruct (row_of_year _ n t Hyears ltac:(lia)) as (row & Hrow & Hyear).
    exists row. split; [exact Hrow|]. split; [exact Hyear|].
    destruct (calcNPV_sound Math_pow (S n) values res (Hres (S n) ltac:(lia)))
      as (rest & Hrows & Hdisc & _).
    rewrite Hrows in Hrow. destruct t as [|t]; [lia|]. cbn [nth_error] in Hrow.
    apply nth_error_In in Hrow.
    destruct (proj1 (Forall_forall _ _) Hdisc row Hrow) as (_ & Hf & Hpv).
    rewrite <- Hyear. split; assumption.
  - intros ->. reflexivity.
Qed.

(** C5. Row 0 of a returned table has year [0], net cash flow minus the
    total investment, discount factor [1] and present value minus the total
    investment; within the array limit a table is returned. *)
Theorem calcNPV_row0 (values : Values.t) :
  (forall fuel res,
      calcNPV Math_pow fuel values = Returns res ->
      exists row0 rest,
        NPVResult.rows res = row0 :: rest
        /\ CashFlowRow.year row0 = 0
        /\ CashFlowRow.net row0 = - ROIResult.invest (calcROI values)
        /\ CashFlowRow.factor row0 = 1
        /\ CashFlowRow.pv row0 = - ROIResult.invest (calcROI values))
  /\ ((horizonYears values <=? 4294967294) = true ->
      exists fuel res, calcNPV Math_pow fuel values = Returns res).
Proof.
  split; [|apply calcNPV_terminates].
  intros fuel res Hres.
  destruct (calcNPV_sound Math_pow fuel values res Hres)
    as (rest & Hrows & _).
  eexists. exists rest. split; [exact Hrows|]. conjuncts; reflexivity.
Qed.

(** C7. In a returned table every row's cumulative present value is the sum
    of the present values of the rows up to and including it, added in year
    order; the net present value is that sum over all rows, and it is the
    cumulative present value of the last row.  Within the array limit a
    table is returned. *)
Theorem calcNPV_cumulative (values : Values.t) :
  (forall fuel res,
      calcNPV Math_pow fuel values = Returns res ->
      cumulativeOK (NPVResult.rows res)
      /\ NPVResult.npv res = sumPV (NPVResult.rows res)
      /\ forall d,
           NPVResult.npv res
           = CashFlowRow.cumulative (last (NPVResult.rows res) d))
  /\ ((horizonYears values <=? 4294967294) = true ->
      exists fuel res, calcNPV Math_pow fuel values = Returns res).
Proof.
  split; [|apply calcNPV_terminates].
  intros fuel res Hres.
  destruct (calcNPV_sound Math_pow fuel values res Hres)
    as (rest & Hrows & _ & Hrun & Hnpv & _).
  cbv zeta in Hrows, Hrun, Hnpv.
  set (invest := Values.price values + Values.reno values) in *.
  set (row0 := {| CashFlowRow.year := 0; CashFlowRow.net := - invest;
                  CashFlowRow.factor := 1; CashFlowRow.pv := - invest;
                  CashFlowRow.cumulative := 0 + - invest |}) in *.
  destruct (runningFrom_sums rest [row0] (0 + - invest)) as [Hok Hsum].
  - reflexivity.
  - intros [|k] row Hk; [|destruct k; discriminate Hk].
    injection Hk as <-. reflexivity.
  - exact Hrun.
  - rewrite Hrows, Hnpv. change (row0 :: rest) with ([row0] ++ rest).
    split; [exact Hok|]. split; [exact Hsum|].
    intros d. cbn [app]. rewrite last_cons_default.
    change (0 + - invest) with (CashFlowRow.cumulative row0).
    apply last_map.
Qed.

End NPVProperties.

(** ** The worked example of the specification *)

Section WorkedExample.

Local Open Scope float_scope.

(** C8, as the code computes it.  On the default inputs (price 260000,
    renovation 17000, management 2639, tax 3022, rent 1700, discount 2
    percent, 30 years), with a [Math.pow] that returns its base for the
    exponent [1]: total investment 277000, annual net income 14739, ROI
    5.32 percent and payback 18.79 years to two decimals, row 0 present
    value -277000, year-1 discount factor 0.9804 to four decimals, and
    year-1 present value 14450 (not 14449.02). *)
Theorem defaults_example (Math_pow : float -> float -> float) :
  Math_pow (1 + 2 / 100) 1 = 1 + 2 / 100 ->
  let roiRes := calcROI DEFAULTS in
  ROIResult.invest roiRes = 277000
  /\ ROIResult.annualNet roiRes = 14739
  /\ approx (ROIResult.roi roiRes) 5.32 0.005 = true
  /\ approx (ROIResult.payback roiRes) 18.79 0.005 = true
  /\ exists res row0 row1 rest,
       (forall fuel, (30 < fuel)%nat ->
          calcNPV Math_pow fuel DEFAULTS = Returns res)
       /\ NPVResult.rows res = row0 :: row1 :: rest
       /\ CashFlowRow.pv row0 = -277000
       /\ CashFlowRow.year row1 = 1
       /\ approx (CashFlowRow.factor row1) 0.9804 0.00005 = true
       /\ CashFlowRow.pv row1 = 14450.
Proof.
  intros Hpow. cbv zeta. repeat (split; [reflexivity|]).
  destruct (calcNPV_returns Math_pow DEFAULTS eq_refl)
    as (n & Hn & Hh & res & Hres & _).
  assert (n = 30%nat) as ->.
  { change (horizonYears DEFAULTS) with (Z2F 30) in Hh.
    apply Z2F_inj in Hh; lia. }
  pose proof (Hres 31%nat ltac:(lia)) as H31.
  vm_compute in H31. vm_compute in Hpow. injection H31 as <-.
  do 4 eexists. split; [exact Hres|].
  cbn [NPVResult.rows CashFlowRow.pv CashFlowRow.year CashFlowRow.factor].
  split; [reflexivity|]. rewrite Hpow. repeat split.
Qed.

End WorkedExample.

(** C8, as stated, fails at the year-1 present value: it is [14450]
    (that is [14739 / 1.02]), not [14449.02], not even to within a half. *)
Lemma spec_example_presentValue_off :
  exists res row1,
    calcNPV Ref.Math_pow 31 DEFAULTS = Returns res
    /\ nth_error (NPVResult.rows res) 1 = Some row1
    /\ CashFlowRow.pv row1 = 14450%float
    /\ approx (CashFlowRow.pv row1) 14449.02 0.005 = false
    /\ approx (CashFlowRow.pv row1) 14449.02 0.5 = false.
Proof.
  do 2 eexists. split; [lazy; reflexivity|].
  cbn [NPVResult.rows nth_error]. split; [reflexivity|].
  cbn [CashFlowRow.pv]. repeat split.
Qed.

(** ** Reading and validating the inputs *)

Section InputProperties.

Local Open Scope float_scope.

Variable parseFloat : string -> float.

Lemma readInputValue_finite (doc : Document) (id : string) (fallback : float) :
  Number_isFinite fallback = true ->
  Number_isFinite (readInputValue parseFloat doc id fallback) = true.
Proof.
  intros Hfb. unfold readInputValue. destruct (qs doc id) as [el|]; [|exact Hfb].
  cbv zeta. destruct (Number_isFinite (parseFloat (value el))) eqn:Hv; assumption.
Qed.

Lemma readInputValue_unreadable (doc : Document) (id : string)
    (fallback : float) :
  unreadable parseFloat doc id ->
  readInputValue parseFloat doc id fallback = fallback.
Proof.
  unfold unreadable, readInputValue. destruct (qs doc id) as [el|];
    [|reflexivity].
  cbv zeta. intros ->. reflexivity.
Qed.

Lemma readInputValue_entered (doc : Document) (id : string)
    (fallback v : float) :
  entered parseFloat doc id v ->
  readInputValue parseFloat doc id fallback = v.
Proof.
  intros (el & Hel & Hv & Hfin). unfold readInputValue. rewrite Hel.
  cbv zeta. rewrite Hv, Hfin. reflexivity.
Qed.

(** Clamping the years keeps them finite. *)
Lemma horizon_finite (y : float) :
  is_finite y = true -> is_finite (Math_max 1 (Math_floor y)) = true.
Proof.
  intros Hfin.
  destruct (horizon_cases y Hfin) as [(n & Hn & ->)|(-> & _)]; [|exact Hfin].
  pose proof (Prim2SF_Z2F n ltac:(lia)) as R.
  destruct n as [|p|p]; try lia. cbn [IntSF] in R.
  destruct R as (m & e & R & _). exact (finite_is_finite _ _ _ _ R).
Qed.

Lemma qs_setFieldMessage_other (doc : Document) (id id' msg : string) :
  id' <> id -> qs (setFieldMessage doc id msg) id' = qs doc id'.
Proof.
  intros Hne. unfold setFieldMessage, qs.
  destruct (doc id) as [el|]; [|reflexivity].
  unfold setTextContent. rewrite (proj2 (String.eqb_neq id' id) Hne).
  reflexivity.
Qed.

Lemma qs_setFieldMessage_same (doc : Document) (id msg : string)
    (el : Element) :
  qs doc id = Some el ->
  qs (setFieldMessage doc id msg) id = Some (mkElement (value el) msg).
Proof.
  intros Hel. unfold setFieldMessage. rewrite Hel.
  unfold qs, setTextContent. rewrite String.eqb_refl. reflexivity.
Qed.

(** [calculate] hands the validated values, and nothing else, to both
    calculators. *)
Lemma calculate_inputs (Math_pow : float -> float -> float) (fuel : nat)
    (doc : Document) :
  let values := fst (validateAndReadAll parseFloat doc) in
  let c := calculate parseFloat Math_pow fuel doc in
  inputs c = values
  /\ roiRes c = calcROI values
  /\ npvRes c = calcNPV Math_pow fuel values.
Proof.
  unfold calculate. destruct (validateAndReadAll parseFloat doc) as [v d].
  repeat split.
Qed.

(** C9. An entry that is missing or does not parse to a finite Number is
    replaced by the default of its field (260000, 17000, 2639, 3022, 1700,
    2, 30), so every value [calculate] hands to the calculators is a finite
    Number. *)
Theorem validateAndReadAll_defaults (doc : Document) :
  let values := fst (validateAndReadAll parseFloat doc) in
  allFinite values
  /\ (unreadable parseFloat doc "price" -> Values.price values = 260000)
  /\ (unreadable parseFloat doc "reno" -> Values.reno values = 17000)
  /\ (unreadable parseFloat doc "mgmt" -> Values.mgmt values = 2639)
  /\ (unreadable parseFloat doc "tax" -> Values.tax values = 3022)
  /\ (unreadable parseFloat doc "rent" -> Values.rent values = 1700)
  /\ (unreadable parseFloat doc "discount" -> Values.discount values = 2)
  /\ (unreadable parseFloat doc "years" -> Values.years values = 30)
  /\ forall Math_pow fuel,
       let c := calculate parseFloat Math_pow fuel doc in
       roiRes c = calcROI values /\ npvRes c = calcNPV Math_pow fuel values.
Proof.
  cbv zeta. conjuncts.
  - unfold validateAndReadAll, allFinite.
    cbn [fst Values.price Values.reno Values.mgmt Values.tax Values.rent
           Values.discount Values.years].
    conjuncts; try (apply readInputValue_finite; reflexivity).
    apply horizon_finite. apply readInputValue_finite. reflexivity.
  - intros H. unfold validateAndReadAll. cbn [fst Values.price].
    apply readInputValue_unreadable, H.
  - intros H. unfold validateAndReadAll. cbn [fst Values.reno].
    apply readInputValue_unreadable, H.
  - intros H. unfold validateAndReadAll. cbn [fst Values.mgmt].
    apply readInputValue_unreadable, H.
  - intros H. unfold validateAndReadAll. cbn [fst Values.tax].
    apply readInputValue_unreadable, H.
  - intros H. unfold validateAndReadAll. cbn [fst Values.rent].
    apply readInputValue_unreadable, H.
  - intros H. unfold validateAndReadAll. cbn [fst Values.discount].
    apply readInputValue_unreadable, H.
  - intros H. unfold validateAndReadAll. cbn [fst Values.years].
    rewrite (readInputValue_unreadable _ _ _ H). reflexivity.
  - intros Math_pow fuel. apply (calculate_inputs Math_pow fuel doc).
Qed.

(** C10. An entry that parses to a finite Number is returned as it is,
    negative or not; only the years are clamped, to
    [Math.max(1, Math.floor(years))].  A price at or below zero gets its
    message, and is handed to both calculators all the same. *)
Theorem validateAndReadAll_passthrough (doc : Document) :
  let values := fst (validateAndReadAll parseFloat doc) in
  let page' := snd (validateAndReadAll parseFloat doc) in
  (forall v, entered parseFloat doc "price" v -> Values.price values = v)
  /\ (forall v, entered parseFloat doc "reno" v -> Values.reno values = v)
  /\ (forall v, entered parseFloat doc "mgmt" v -> Values.mgmt values = v)
  /\ (forall v, entered parseFloat doc "tax" v -> Values.tax values = v)
  /\ (forall v, entered parseFloat doc "rent" v -> Values.rent values = v)
  /\ (forall v, entered parseFloat doc "discount" v ->
        Values.discount values = v)
  /\ (forall v, entered parseFloat doc "years" v ->
        Values.years values = Math_max 1 (Math_floor v))
  /\ (forall v el,
        entered parseFloat doc "price" v -> (v <=? 0) = true ->
        qs doc "price-msg" = Some el ->
        option_map textContent (qs page' "price-msg")
          = Some "Price must be positive"%string
        /\ forall Math_pow fuel,
             let c := calculate parseFloat Math_pow fuel doc in
             Values.price (inputs c) = v
             /\ roiRes c = calcROI values
             /\ npvRes c = calcNPV Math_pow fuel values).
Proof.
  cbv zeta. unfold validateAndReadAll.
  cbn [fst snd Values.price Values.reno Values.mgmt Values.tax Values.rent
         Values.discount Values.years].
  conjuncts; try (intros v Hv; apply readInputValue_entered; exact Hv).
  - intros v Hv. rewrite (readInputValue_entered _ _ _ _ Hv). reflexivity.
  - intros v el Hv Hle Hel. split.
    + rewrite !qs_setFieldMessage_other by discriminate.
      rewrite (readInputValue_entered _ _ _ _ Hv), Hle.
      rewrite (qs_setFieldMessage_same _ _ _ _ Hel). reflexivity.
    + intros Math_pow fuel.
      destruct (calculate_inputs Math_pow fuel doc) as (Hin & Hroi & Hnpv).
      cbv zeta in Hin, Hroi, Hnpv |- *. rewrite Hin. conjuncts.
      * unfold validateAndReadAll. cbn [fst Values.price].
        apply readInputValue_entered. exact Hv.
      * exact Hroi.
      * exact Hnpv.
Qed.

End InputProperties.

(** ** The claims on sample inputs *)

Section Witnesses.

Local Open Scope float_scope.

(** [calcROI_roi] on a zero investment and on the defaults. *)
Lemma calcROI_roi_witness :
  ((ROIResult.invest (calcROI Sample.zeroInvestment) =? 0) = true
   /\ ROIResult.roi (calcROI Sample.zeroInvestment) = 0)
  /\ ((ROIResult.invest (calcROI DEFAULTS) =? 0) = false
      /\ ROIResult.roi (calcROI DEFAULTS) = 14739 / 277000 * 100).
Proof.
  split; (split; [reflexivity|]).
  - apply (proj1 (calcROI_roi Sample.zeroInvestment)). reflexivity.
  - apply (proj1 (proj2 (calcROI_roi DEFAULTS))). reflexivity.
Defined.

(** [calcROI_payback] without rent and on the defaults. *)
Lemma calcROI_payback_witness :
  ((ROIResult.annualNet (calcROI Sample.noRent) <=? 0) = true
   /\ ROIResult.payback (calcROI Sample.noRent) = Infinity
   /\ paybackCard (calcROI Sample.noRent) = SetText "—")
  /\ ((0 <? ROIResult.annualNet (calcROI DEFAULTS)) = true
      /\ ROIResult.payback (calcROI DEFAULTS) = 277000 / 14739).
Proof.
  split; (split; [reflexivity|]).
  - apply (proj2 (calcROI_payback Sample.noRent)). reflexivity.
  - apply (proj1 (calcROI_payback DEFAULTS)). reflexivity.
Defined.

(** [calcNPV_discounting] on two and a half years at -150 percent. *)
Lemma calcNPV_discounting_witness :
  exists res,
    calcNPV Ref.Math_pow 3 Sample.negativeRate = Returns res
    /\ (exists row0 rest,
          NPVResult.rows res = row0 :: rest
          /\ Forall (discounted Ref.Math_pow (-0.99)
                       (1700 * 12 - (2639 + 3022))) rest)
    /\ (horizonYears Sample.negativeRate <=? 4294967294) = true
    /\ Values.discount Sample.negativeRate = -150
    /\ Math_max (-0.99) (Values.discount Sample.negativeRate / 100) = -0.99.
Proof.
  eexists. split; [lazy; reflexivity|].
  destruct (calcNPV_discounting Ref.Math_pow Sample.negativeRate)
    as (Hrows & _ & Hrate).
  split; [exact (Hrows 3%nat _ eq_refl)|].
  split; [reflexivity|]. split; [reflexivity|]. exact (Hrate eq_refl).
Defined.

(** [calcNPV_row0] on the two-and-a-half-year horizon. *)
Lemma calcNPV_row0_witness :
  exists res,
    calcNPV Ref.Math_pow 3 Sample.shortHorizon = Returns res
    /\ exists row0 rest,
         NPVResult.rows res = row0 :: rest
         /\ CashFlowRow.year row0 = 0
         /\ CashFlowRow.net row0 = -277000
         /\ CashFlowRow.factor row0 = 1
         /\ CashFlowRow.pv row0 = -277000.
Proof.
  eexists. split; [lazy; reflexivity|].
  exact (proj1 (calcNPV_row0 Ref.Math_pow Sample.shortHorizon) 3%nat _ eq_refl).
Defined.

(** [calcNPV_cumulative] on the two-and-a-half-year horizon. *)
Lemma calcNPV_cumulative_witness :
  exists res,
    calcNPV Ref.Math_pow 3 Sample.shortHorizon = Returns res
    /\ cumulativeOK (NPVResult.rows res)
    /\ NPVResult.npv res = sumPV (NPVResult.rows res)
    /\ forall d,
         NPVResult.npv res
         = CashFlowRow.cumulative (last (NPVResult.rows res) d).
Proof.
  eexists. split; [lazy; reflexivity|].
  exact (proj1 (calcNPV_cumulative Ref.Math_pow Sample.shortHorizon)
           3%nat _ eq_refl).
Defined.

(** [defaults_example] with the reference [Math.pow]. *)
Lemma defaults_example_witness :
  Ref.Math_pow (1 + 2 / 100) 1 = 1 + 2 / 100
  /\ ROIResult.invest (calcROI DEFAULTS) = 277000
  /\ ROIResult.annualNet (calcROI DEFAULTS) = 14739
  /\ approx (ROIResult.roi (calcROI DEFAULTS)) 5.32 0.005 = true
  /\ approx (ROIResult.payback (calcROI DEFAULTS)) 18.79 0.005 = true
  /\ exists res row0 row1 rest,
       (forall fuel, (30 < fuel)%nat ->
          calcNPV Ref.Math_pow fuel DEFAULTS = Returns res)
       /\ NPVResult.rows res = row0 :: row1 :: rest
       /\ CashFlowRow.pv row0 = -277000
       /\ CashFlowRow.year row1 = 1
       /\ approx (CashFlowRow.factor row1) 0.9804 0.00005 = true
       /\ CashFlowRow.pv row1 = 14450.
Proof.
  split; [reflexivity|].
  apply (defaults_example Ref.Math_pow). reflexivity.
Defined.

(** [validateAndReadAll_defaults] on the sample page: the rent is no number
    and there is no renovation field. *)
Lemma validateAndReadAll_defaults_witness :
  (unreadable Ref.parseFloat Sample.page "rent"
   /\ Values.rent (fst (validateAndReadAll Ref.parseFloat Sample.page))
      = 1700)
  /\ (unreadable Ref.parseFloat Sample.page "reno"
      /\ Values.reno (fst (validateAndReadAll Ref.parseFloat Sample.page))
         = 17000)
  /\ allFinite (fst (validateAndReadAll Ref.parseFloat Sample.page)).
Proof.
  pose proof (validateAndReadAll_defaults Ref.parseFloat Sample.page) as H.
  cbv zeta in H.
  destruct H as (Hfin & _ & Hreno & _ & _ & Hrent & _).
  assert (Hr : unreadable Ref.parseFloat Sample.page "rent") by reflexivity.
  assert (Hn : unreadable Ref.parseFloat Sample.page "reno") by exact I.
  split; [split; [exact Hr|exact (Hrent Hr)]|].
  split; [split; [exact Hn|exact (Hreno Hn)]|exact Hfin].
Defined.

(** [validateAndReadAll_passthrough] on the sample page: the price is
    [-5], the years are [7]. *)
Lemma validateAndReadAll_passthrough_witness :
  entered Ref.parseFloat Sample.page "price" (-5)
  /\ Values.price (fst (validateAndReadAll Ref.parseFloat Sample.page)) = -5
  /\ option_map textContent
       (qs (snd (validateAndReadAll Ref.parseFloat Sample.page)) "price-msg")
     = Some "Price must be positive"%string
  /\ Values.price (inputs (calculate Ref.parseFloat Ref.Math_pow 8 Sample.page))
     = -5.
Proof.
  pose proof (validateAndReadAll_passthrough Ref.parseFloat Sample.page) as H.
  cbv zeta in H.
  destruct H as (Hprice & _ & _ & _ & _ & _ & _ & Hflag).
  assert (He : entered Ref.parseFloat Sample.page "price" (-5)).
  { exists (mkElement "-5" ""). repeat split. }
  destruct (Hflag (-5) (mkElement "" "") He eq_refl eq_refl) as [Hmsg Hcalc].
  split; [exact He|]. split; [exact (Hprice _ He)|].
  split; [exact Hmsg|]. exact (proj1 (Hcalc Ref.Math_pow 8%nat)).
Defined.

End Witnesses.

(** * Part III: further properties of the script *)

(** ** Validation: the years, the messages, the frame *)

Section ValidationProperties.

Local Open Scope float_scope.

Variable parseFloat : string -> float.

(** Flooring an integral Number changes nothing. *)
Lemma Math_floor_Z2F (n : Z) :
  (- 2 ^ 53 < n < 2 ^ 53)%Z -> Math_floor (Z2F n) = Z2F n.
Proof.
  intros Hn. pose proof (Prim2SF_Z2F n Hn) as R. unfold Math_floor.
  destruct n as [|p|p]; cbn [IntSF] in R.
  - reflexivity.
  - destruct R as (m & e & R & (Hd & He & Hm)). rewrite R.
    destruct (Z.leb_spec 0 e); [reflexivity|].
    cbn [cond_Zopp]. rewrite Hm, Z.div_mul; [reflexivity|].
    apply Z.pow_nonzero; lia.
  - destruct R as (m & e & R & (Hd & He & Hm)). rewrite R.
    destruct (Z.leb_spec 0 e); [reflexivity|].
    cbn [cond_Zopp]. rewrite Hm, <- Z.mul_opp_l, Z.div_mul; [reflexivity|].
    apply Z.pow_nonzero; lia.
Qed.

(** The clamped years are integral, at least one, and clamping them again
    changes nothing. *)
Lemma horizon_fixed (y : float) :
  is_finite y = true ->
  let h := Math_max 1 (Math_floor y) in
  (1 <=? h) = true /\ (h <=? 0) = false
  /\ Math_floor h = h /\ Math_max 1 (Math_floor h) = h.
Proof.
  intros Hfin. cbv zeta.
  destruct (horizon_cases y Hfin) as [(n & Hn & ->)|(Hh & m & e & Hy & He)].
  - assert (Hn' : (- 2 ^ 53 < n < 2 ^ 53)%Z) by lia.
    rewrite (Math_floor_Z2F n Hn'), (Math_max_one_Z2F n Hn').
    change 1 with (Z2F 1). change 0 with (Z2F 0).
    rewrite !Z2F_leb by (change (2 ^ 53)%Z with 9007199254740992%Z in *; lia).
    conjuncts.
    + apply Z.leb_le. lia.
    + apply Z.leb_gt. lia.
    + reflexivity.
    + f_equal. lia.
  - rewrite Hh.
    assert (Hfl : Math_floor y = y).
    { unfold Math_floor. rewrite Hy.
      destruct (Z.leb_spec 0 e); [reflexivity|lia]. }
    rewrite Hfl. rewrite Hfl in Hh. rewrite Hh.
    rewrite !leb_spec, Hy.
    change (Prim2SF 1) with (S754_finite false 4503599627370496 (-52)).
    change (Prim2SF 0) with (S754_zero false).
    unfold SFleb. cbn [SFcompare].
    destruct (Z.compare_spec (-52) e); try lia. conjuncts; reflexivity.
Qed.

(** X1. The years [validateAndReadAll] returns are an integral Number of at
    least one, whatever the page holds; so the clamp of [calcNPV] leaves
    them as they are, and the table [calculate] gets carries exactly the
    validated years. *)
Theorem validated_years_integral (doc : Document) :
  let values := fst (validateAndReadAll parseFloat doc) in
  (1 <=? Values.years values) = true
  /\ Math_floor (Values.years values) = Values.years values
  /\ horizonYears values = Values.years values
  /\ forall Math_pow fuel res,
       npvRes (calculate parseFloat Math_pow fuel doc) = Returns res ->
       NPVResult.years res = Values.years (inputs (calculate parseFloat Math_pow fuel doc)).
Proof.
  cbv zeta.
  assert (Hfin : is_finite (readInputValue parseFloat doc "years"
                              (Values.years DEFAULTS)) = true)
    by (apply readInputValue_finite; reflexivity).
  destruct (horizon_fixed _ Hfin) as (Hge & _ & Hfl & Hidem).
  cbv zeta in Hge, Hfl, Hidem.
  assert (Hh : horizonYears (fst (validateAndReadAll parseFloat doc))
               = Values.years (fst (validateAndReadAll parseFloat doc)))
    by exact Hidem.
  conjuncts; try assumption.
  intros Math_pow fuel res Hres.
  destruct (calculate_inputs parseFloat Math_pow fuel doc) as (Hin & _ & Hnpv).
  cbv zeta in Hin, Hnpv. rewrite Hin. rewrite Hnpv in Hres.
  destruct (calcNPV_sound Math_pow fuel _ res Hres)
    as (rest & _ & _ & _ & _ & _ & Hy).
  rewrite Hy. exact Hh.
Qed.

(** What the page holds at [id] after a message was set. *)
Lemma qs_setFieldMessage (doc : Document) (i msg id : string) :
  qs (setFieldMessage doc i msg) id
  = if String.eqb id i
    then option_map (fun el => mkElement (value el) msg) (qs doc i)
    else qs doc id.
Proof.
  unfold setFieldMessage, qs, setTextContent.
  destruct (String.eqb_spec id i) as [->|Hne].
  - destruct (doc i) eqn:E; rewrite ?String.eqb_refl; [reflexivity|].
    exact E.
  - destruct (doc i); [|reflexivity].
    rewrite (proj2 (String.eqb_neq id i) Hne). reflexivity.
Qed.

(** X2. The years message is never shown: whatever is entered, validation
    leaves the [years-msg] element, if the page has one, with an empty text
    (the years it tests were clamped to at least one just before). *)
Theorem years_message_never_shown (doc : Document) (el : Element) :
  qs doc "years-msg" = Some el ->
  qs (snd (validateAndReadAll parseFloat doc)) "years-msg"
  = Some (mkElement (value el) "").
Proof.
  intros Hel. unfold validateAndReadAll. cbn [snd].
  rewrite qs_setFieldMessage, String.eqb_refl.
  rewrite !qs_setFieldMessage_other by discriminate. rewrite Hel.
  assert (Hfin : is_finite (readInputValue parseFloat doc "years"
                              (Values.years DEFAULTS)) = true)
    by (apply readInputValue_finite; reflexivity).
  destruct (horizon_fixed _ Hfin) as (_ & Hpos & _).
  cbv zeta in Hpos. rewrite Hpos. reflexivity.
Qed.

End ValidationProperties.

Section ValidationFrame.

Local Open Scope float_scope.

Variable parseFloat : string -> float.

(** Looks an id up through the seven messages [validateAndReadAll] sets. *)
Ltac through_messages :=
  repeat first
    [ rewrite qs_setFieldMessage_other by discriminate
    | rewrite qs_setFieldMessage_other by assumption
    | rewrite qs_setFieldMessage, String.eqb_refl ].






(** X5. Values that break no rule clear every message: after validation
    each message element of the page has an empty text. *)
Theorem ruleAbiding_clears_messages (doc : Document) (id : string)
    (el : Element) :
  ruleAbiding (fst (validateAndReadAll parseFloat doc)) ->
  In id messageIds -> qs doc id = Some el ->
  qs (snd (validateAndReadAll parseFloat doc)) id
  = Some (mkElement (value el) "").
Proof.
  unfold ruleAbiding, validateAndReadAll.
  cbn [fst snd Values.price Values.reno Values.mgmt Values.tax Values.rent
         Values.discount].
  intros (Hp & Hr & Hm & Ht & Hrent & Hd1 & Hd2) Hin Hel.
  assert (Hfin : is_finite (readInputValue parseFloat doc "years"
                              (Values.years DEFAULTS)) = true)
    by (apply readInputValue_finite; reflexivity).
  destruct (horizon_fixed _ Hfin) as (_ & Hy & _). cbv zeta in Hy.
  unfold messageIds in Hin. cbn [In] in Hin.
  destruct Hin as [<-|[<-|[<-|[<-|[<-|[<-|[<-|[]]]]]]]];
    through_messages; rewrite Hel;
    rewrite ?Hp, ?Hr, ?Hm, ?Ht, ?Hrent, ?Hd1, ?Hd2, ?Hy; reflexivity.
Qed.

End ValidationFrame.

(** ** The NPV calculator at the edges of its input *)

Section HorizonEdges.

Local Open Scope float_scope.

Lemma is_nan_eq (y : float) : is_nan y = true -> y = nan.
Proof.
  intros Hnan. pose proof (SF2Prim_Prim2SF y) as E.
  unfold is_nan in Hnan. rewrite eqb_spec in Hnan. unfold SFeqb in Hnan.
  destruct (Prim2SF y) as [[]|[]| |s m e]; try discriminate Hnan.
  - symmetry. exact E.
  - rewrite SFcompare_finite_refl in Hnan. discriminate Hnan.
Qed.

(** A valid finite mantissa is canonical for its exponent. *)
Lemma valid_canonical (x : float) s m e :
  Prim2SF x = S754_finite s m e -> Z.max (D m + e - 53) (-1074) = e.
Proof.
  intros Hx. pose proof (Prim2SF_valid x) as Hv. rewrite Hx in Hv.
  unfold SpecFloat.valid_binary, bounded, canonical_mantissa, fexp,
    SpecFloat.emin, prec, emax in Hv.
  apply andb_prop in Hv. destruct Hv as [Hc _]. apply Z.eqb_eq in Hc.
  exact Hc.
Qed.

(** Years below two, whatever they are, make a horizon of one year. *)
Lemma horizon_small (y : float) :
  (y <? 2) = true -> Math_max 1 (Math_floor y) = 1.
Proof.
  intros Hlt. pose proof (SF2Prim_Prim2SF y) as E.
  destruct (Prim2SF y) as [[]|[]| |s m e] eqn:Hy.
  1-2: rewrite <- E; reflexivity.
  1: rewrite <- E; reflexivity.
  1-2: rewrite <- E in Hlt; discriminate Hlt.
  clear E. pose proof (valid_mantissa_bound _ _ _ _ Hy) as Hm.
  assert (Hone : forall k, (- 2 ^ 53 < k < 2 ^ 53)%Z -> (k <= 1)%Z ->
                   Math_max 1 (Z2F k) = 1).
  { intros k Hk Hk1. rewrite Math_max_one_Z2F by assumption.
    change 1 with (Z2F 1). f_equal. lia. }
  unfold Math_floor. rewrite Hy. destruct (Z.leb_spec 0 e) as [He|He].
  - rewrite ltb_spec, Hy in Hlt.
    change (Prim2SF 2) with (S754_finite false 4503599627370496 (-51)) in Hlt.
    unfold SFltb in Hlt. destruct s.
    + unfold Math_max. rewrite (finite_is_nan _ _ _ _ Hy).
      change (is_nan 1 || false) with false. cbv iota.
      rewrite !ltb_spec, Hy.
      change (Prim2SF 1) with (S754_finite false 4503599627370496 (-52)).
      reflexivity.
    + cbn [SFcompare] in Hlt.
      destruct (Z.compare_spec e (-51)); try lia; discriminate Hlt.
  - pose proof (floor_quotient_bound s m e Hm He) as Hk.
    apply Hone; [exact Hk|].
    assert (HP : (0 < 2 ^ (- e))%Z) by (apply Z.pow_pos_nonneg; lia).
    pose proof (Z.mul_div_le (cond_Zopp s (Zpos m)) (2 ^ (- e)) HP) as Hlo.
    destruct s; cbn [cond_Zopp] in *.
    + set (k := (Z.neg m / 2 ^ (- e))%Z) in *. nia.
    + rewrite ltb_spec, Hy in Hlt.
      change (Prim2SF 2) with (S754_finite false 4503599627370496 (-51)) in Hlt.
      unfold SFltb in Hlt. cbn [SFcompare] in Hlt.
      pose proof (valid_canonical _ _ _ _ Hy) as Hcan.
      pose proof (digits2_pos_bounds m) as [Blo _].
      assert (He' : (e <= -52)%Z).
      { destruct (Z.compare_spec e (-51)) as [Heq|Hl|Hg];
          [exfalso|lia|discriminate Hlt].
        subst e. assert (Hd : D m = 53%Z) by lia. rewrite Hd in Blo.
        change (2 ^ (53 - 1))%Z with 4503599627370496%Z in Blo.
        destruct (Pos.compare_cont Eq m 4503599627370496) eqn:C;
          try discriminate Hlt.
        assert (Hlt' : (Z.pos m < 4503599627370496)%Z).
        { apply Pos2Z.pos_lt_pos. apply Pos.compare_lt_iff. exact C. }
        clear C Hlt. lia. }
      assert (HP' : (2 ^ 52 <= 2 ^ (- e))%Z)
        by (apply Z.pow_le_mono_r; lia).
      change (2 ^ 52)%Z with 4503599627370496%Z in HP'.
      change (2 ^ 53)%Z with 9007199254740992%Z in Hm.
      set (k := (Z.pos m / 2 ^ (- e))%Z) in *. nia.
Qed.

(** A horizon above the array limit is reached by every count up to
    [4294967295]. *)
Lemma horizon_above (y : float) :
  (4294967294 <? Math_max 1 (Math_floor y)) = true ->
  forall i, (1 <= i <= 4294967295)%Z ->
    (Z2F i <=? Math_max 1 (Math_floor y)) = true.
Proof.
  intros Hgt i Hi.
  assert (Hrep : exists m e, Prim2SF (Z2F i) = S754_finite false m e
                             /\ (e < 0)%Z).
  { pose proof (Prim2SF_Z2F i ltac:(lia)) as R.
    destruct i as [|p|p]; try lia. cbn [IntSF] in R.
    destruct R as (m & e & R & (Hd & He & Hm)). exists m, e. split; [exact R|].
    destruct (Z.eq_dec e 0) as [->|]; [exfalso|lia].
    pose proof (digits2_pos_bounds m) as [Blo _]. rewrite Hd in Blo.
    change (2 ^ (53 - 1))%Z with 4503599627370496%Z in Blo.
    change (2 ^ (- 0))%Z with 1%Z in Hm. lia. }
  destruct Hrep as (mi & ei & Ri & Hei).
  pose proof (SF2Prim_Prim2SF y) as E.
  destruct (Prim2SF y) as [[]|[]| |s m e] eqn:Hy.
  1-3: rewrite <- E in Hgt; discriminate Hgt.
  - rewrite <- E.
    change (Math_max 1 (Math_floor (SF2Prim (S754_infinity false))))
      with infinity.
    rewrite leb_spec, Ri. reflexivity.
  - rewrite <- E in Hgt; discriminate Hgt.
  - clear E.
    destruct (horizon_cases y (finite_is_finite _ _ _ _ Hy))
      as [(n & Hn & Hh)|(Hh & m' & e' & Hy' & He')].
    + rewrite Hh in Hgt |- *. change 4294967294 with (Z2F 4294967294) in Hgt.
      rewrite Z2F_ltb in Hgt
        by (change (2 ^ 53)%Z with 9007199254740992%Z in *; lia).
      apply Z.ltb_lt in Hgt.
      rewrite Z2F_leb by (change (2 ^ 53)%Z with 9007199254740992%Z in *; lia).
      apply Z.leb_le. lia.
    + rewrite Hh, leb_spec, Ri, Hy'. unfold SFleb. cbn [SFcompare].
      destruct (Z.compare_spec ei e'); try lia; reflexivity.
Qed.

(** Every Number is NaN, at most the array limit, or above it. *)
Lemma limit_trichotomy (h : float) :
  is_nan h = true \/ (h <=? 4294967294) = true
  \/ (4294967294 <? h) = true.
Proof.
  unfold is_nan. rewrite leb_spec, ltb_spec, eqb_spec.
  unfold SFleb, SFltb, SFeqb.
  rewrite (SFcompare_antisym (Prim2SF h) (Prim2SF 4294967294)).
  set (c := Prim2SF 4294967294). vm_compute in c. subst c.
  destruct (SFcompare (Prim2SF h) (S754_finite _ _ _)) as [[]|] eqn:C;
    cbn [option_map CompOpp]; auto.
  left. destruct (Prim2SF h) as [[]|[]| |[] m e]; try discriminate C.
  reflexivity.
Qed.

End HorizonEdges.

(** ** Edge inputs of [calcNPV] *)

Section NPVEdges.

Local Open Scope float_scope.

Variable Math_pow : float -> float -> float.

(** Under a horizon that every count up to [4294967295] reaches, the loop
    returns for no fuel. *)
Lemma calcNPV_loop_never_returns (r netAnnual h : float) :
  (forall i, (1 <= i <= 4294967295)%Z -> (Z2F i <=? h) = true) ->
  forall (fuel : nat) (i : Z) (cumulative : float)
         (rows : list CashFlowRow.t) out,
    (1 <= i <= 4294967295)%Z -> Z.of_nat (List.length rows) = i ->
    calcNPV_loop Math_pow fuel h r netAnnual (Z2F i) cumulative rows
    <> Returns out.
Proof.
  intros Hh. induction fuel as [|fuel IH]; intros i c rows out Hi Hlen;
    [discriminate|].
  cbn [calcNPV_loop]. rewrite (Hh i) by lia.
  destruct (Z.eq_dec i 4294967295) as [Heq|Hne].
  - rewrite push_at_limit by lia. discriminate.
  - rewrite push_within_limit by lia.
    rewrite Z2F_succ by (change (2 ^ 53)%Z with 9007199254740992%Z; lia).
    apply IH; [lia|]. rewrite length_app. cbn [List.length]. lia.
Qed.

(** Above the array limit the loop of [calcNPV], entered with row 0 pushed,
    returns for no fuel. *)
Lemma calcNPV_above_limit_outcome (y r netAnnual : float) :
  (4294967294 <? Math_max 1 (Math_floor y)) = true ->
  forall (fuel : nat) (cumulative : float) (row0 : CashFlowRow.t) out,
    calcNPV_loop Math_pow fuel (Math_max 1 (Math_floor y)) r netAnnual 1
      cumulative [row0]
    <> Returns out.
Proof.
  intros Hgt fuel c row0 out.
  exact (calcNPV_loop_never_returns r netAnnual _ (horizon_above _ Hgt) fuel
           1%Z c [row0] out ltac:(lia) eq_refl).
Qed.

(** X6. Above the array limit [calcNPV] returns no table: when the horizon
    is above [4294967294] (infinite years included) the loop goes on until
    the rows no longer fit, and the call does not return. *)
Theorem calcNPV_above_limit (values : Values.t) :
  (4294967294 <? horizonYears values) = true ->
  forall fuel res, calcNPV Math_pow fuel values <> Returns res.
Proof.
  unfold horizonYears. intros Hgt fuel res Hres.
  unfold calcNPV, push in Hres. cbv zeta in Hres.
  change (N.of_nat (@List.length CashFlowRow.t []) <? MAX_ARRAY_LENGTH)%N
    with true in Hres.
  cbv iota in Hres. cbn [app] in Hres.
  destruct (calcNPV_loop _ _ _ _ _ _ _ _) as [out| |] eqn:Hloop;
    try discriminate Hres.
  exact (calcNPV_above_limit_outcome _ _ _ Hgt _ _ _ _ Hloop).
Qed.

(** X7. The table of years that are no Number: [calcNPV] returns at once,
    with row 0 alone and the net present value [0 + -invest]. *)
Theorem calcNPV_nan_years (values : Values.t) (fuel : nat) :
  is_nan (Values.years values) = true -> (1 <= fuel)%nat ->
  let invest := Values.price values + Values.reno values in
  calcNPV Math_pow fuel values
  = Returns
      {| NPVResult.npv := 0 + - invest;
         NPVResult.rows :=
           [{| CashFlowRow.year := 0; CashFlowRow.net := - invest;
               CashFlowRow.factor := 1; CashFlowRow.pv := - invest;
               CashFlowRow.cumulative := 0 + - invest |}];
         NPVResult.discountPct := Values.discount values;
         NPVResult.years := nan |}.
Proof.
  intros Hnan Hfuel. apply is_nan_eq in Hnan. cbv zeta.
  destruct fuel as [|fuel]; [lia|].
  unfold calcNPV. rewrite Hnan. reflexivity.
Qed.

(** X8. Years below two (zero, negative and fractional years alike) make a
    horizon of one year: the table has exactly the rows of the years [0]
    and [1]. *)
Theorem calcNPV_small_years (values : Values.t) :
  (Values.years values <? 2) = true ->
  horizonYears values = 1
  /\ exists res,
       (forall fuel, (1 < fuel)%nat ->
          calcNPV Math_pow fuel values = Returns res)
       /\ map CashFlowRow.year (NPVResult.rows res) = [0; 1].
Proof.
  intros Hlt. pose proof (horizon_small _ Hlt) as Hh.
  fold (horizonYears values) in Hh. split; [exact Hh|].
  destruct (calcNPV_returns Math_pow values) as (n & Hn & Hhn & res & Hres & Hy).
  { rewrite Hh. reflexivity. }
  assert (n = 1%nat) as ->.
  { rewrite Hh in Hhn. change 1 with (Z2F 1) in Hhn.
    apply Z2F_inj in Hhn; change (2 ^ 53)%Z with 9007199254740992%Z; lia. }
  exists res. split; [exact Hres|]. rewrite Hy. reflexivity.
Qed.

End NPVEdges.

(** ** The rows of a returned table *)

Section ReturnedTables.

Local Open Scope float_scope.

Variable Math_pow : float -> float -> float.

(** More fuel does not change what the loop returns. *)
Lemma calcNPV_loop_more_fuel (years r netAnnual : float) (fuel : nat) :
  forall t cumulative rows out,
    calcNPV_loop Math_pow fuel years r netAnnual t cumulative rows
      = Returns out ->
    forall fuel', (fuel <= fuel')%nat ->
      calcNPV_loop Math_pow fuel' years r netAnnual t cumulative rows
      = Returns out.
Proof.
  induction fuel as [|fuel IH]; intros t c rows out Hrun fuel' Hle;
    [discriminate Hrun|].
  destruct fuel' as [|fuel']; [lia|].
  cbn [calcNPV_loop] in Hrun |- *. destruct (t <=? years); [|exact Hrun].
  destruct (push rows _) as [rows1|]; [|discriminate Hrun].
  apply (IH _ _ _ _ Hrun). lia.
Qed.

Lemma calcNPV_more_fuel (values : Values.t) (fuel fuel' : nat)
    (res : NPVResult.t) :
  calcNPV Math_pow fuel values = Returns res -> (fuel <= fuel')%nat ->
  calcNPV Math_pow fuel' values = Returns res.
Proof.
  unfold calcNPV, push. cbv zeta.
  change (N.of_nat (@List.length CashFlowRow.t []) <? MAX_ARRAY_LENGTH)%N
    with true.
  cbv iota. cbn [app]. intros Hres Hle.
  destruct (calcNPV_loop Math_pow fuel _ _ _ _ _ _) as [[c rows]| |] eqn:Hloop;
    try discriminate Hres.
  rewrite (calcNPV_loop_more_fuel _ _ _ _ _ _ _ _ Hloop fuel' Hle).
  exact Hres.
Qed.

(** The years of every returned table are [0], [1], ..., [n] for some
    [n]. *)
Lemma calcNPV_returned_years_upTo (values : Values.t) (fuel : nat)
    (res : NPVResult.t) :
  calcNPV Math_pow fuel values = Returns res ->
  exists n : nat,
    (Z.of_nat n <= 4294967294)%Z
    /\ map CashFlowRow.year (NPVResult.rows res) = yearsUpTo n.
Proof.
  intros Hres.
  destruct (limit_trichotomy (horizonYears values)) as [Hnan|[Hle|Hgt]].
  - exists 0%nat. split; [lia|]. apply is_nan_eq in Hnan.
    destruct fuel as [|fuel];
      [unfold calcNPV in Hres; cbn in Hres; discriminate Hres|].
    unfold calcNPV in Hres. fold (horizonYears values) in Hres.
    rewrite Hnan in Hres.
    cbn [push List.length N.of_nat app calcNPV_loop] in Hres.
    change (0 <? MAX_ARRAY_LENGTH)%N with true in Hres.
    change (1 <=? nan) with false in Hres. cbv iota zeta in Hres.
    cbn [app] in Hres. injection Hres as <-. reflexivity.
  - destruct (calcNPV_returns Math_pow values Hle)
      as (n & Hn & _ & res' & Hres' & Hy).
    exists n. split; [lia|].
    pose proof (calcNPV_more_fuel _ _ (S (fuel + n)) _ Hres ltac:(lia)) as H1.
    rewrite (Hres' (S (fuel + n)) ltac:(lia)) in H1. injection H1 as <-.
    exact Hy.
  - exfalso. unfold horizonYears in Hgt.
    unfold calcNPV, push in Hres. cbv zeta in Hres.
    change (N.of_nat (@List.length CashFlowRow.t []) <? MAX_ARRAY_LENGTH)%N
      with true in Hres.
    cbv iota in Hres. cbn [app] in Hres.
    destruct (calcNPV_loop _ _ _ _ _ _ _ _) as [out| |] eqn:Hloop;
      try discriminate Hres.
    exact (calcNPV_above_limit_outcome Math_pow _ _ _ Hgt _ _ _ _ Hloop).
Qed.

(** X10. Whatever the fuel, a table [calcNPV] returns has no gaps: its
    rows are those of the years [0], [1], ..., [n] in this order, each year
    once, strictly ascending, [n + 1] rows in all. *)
Theorem calcNPV_returned_years (values : Values.t) (fuel : nat)
    (res : NPVResult.t) :
  calcNPV Math_pow fuel values = Returns res ->
  exists n : nat,
    List.length (NPVResult.rows res) = S n
    /\ (forall i row, nth_error (NPVResult.rows res) i = Some row ->
          CashFlowRow.year row = Z2F (Z.of_nat i))
    /\ StronglySorted (fun a b => (a <? b) = true)
         (map CashFlowRow.year (NPVResult.rows res)).
Proof.
  intros Hres.
  destruct (calcNPV_returned_years_upTo values fuel res Hres) as (n & Hn & Hy).
  assert (Hlen : List.length (NPVResult.rows res) = S n).
  { rewrite <- (length_map CashFlowRow.year), Hy. unfold yearsUpTo.
    rewrite length_map, length_seq. reflexivity. }
  exists n. conjuncts.
  - exact Hlen.
  - intros i row Hrow.
    assert (Hi : (i <= n)%nat).
    { apply Nat.lt_succ_r. rewrite <- Hlen. apply nth_error_Some.
      rewrite Hrow. discriminate. }
    destruct (row_of_year _ n i Hy Hi) as (row' & Hrow' & Hyear).
    rewrite Hrow in Hrow'. injection Hrow' as <-. exact Hyear.
  - rewrite Hy. apply yearsUpTo_sorted.
    change (2 ^ 53)%Z with 9007199254740992%Z. lia.
Qed.

End ReturnedTables.

(** ** The number of rows *)

Section RowCount.

Local Open Scope float_scope.

Variable Math_pow : float -> float -> float.

(** C6. With the horizon [Math.max(1, Math.floor(years))] of years that
    are a Number, every table [calcNPV] returns has exactly horizon + 1
    rows, whose years are [0], [1], ..., horizon, strictly ascending, and
    carries the horizon as its years; within the array limit a table is
    returned. *)
Theorem calcNPV_row_count (values : Values.t) :
  is_nan (horizonYears values) = false ->
  (forall fuel res,
      calcNPV Math_pow fuel values = Returns res ->
      exists n : nat,
        (1 <= n)%nat
        /\ horizonYears values = Z2F (Z.of_nat n)
        /\ NPVResult.years res = horizonYears values
        /\ List.length (NPVResult.rows res) = (n + 1)%nat
        /\ map CashFlowRow.year (NPVResult.rows res) = yearsUpTo n
        /\ StronglySorted (fun a b => (a <? b) = true)
             (map CashFlowRow.year (NPVResult.rows res)))
  /\ ((horizonYears values <=? 4294967294) = true ->
      exists fuel res, calcNPV Math_pow fuel values = Returns res).
Proof.
  intros Hnum. split.
  - intros fuel res Hres.
    destruct (limit_trichotomy (horizonYears values)) as [Hnan|[Hle|Hgt]].
    + rewrite Hnan in Hnum. discriminate Hnum.
    + destruct (calcNPV_returns Math_pow values Hle)
        as (n & Hn & Hh & res' & Hres' & Hyears).
      pose proof (calcNPV_more_fuel Math_pow _ _ (S (fuel + n)) _ Hres
                    ltac:(lia)) as Hsame.
      rewrite (Hres' (S (fuel + n)) ltac:(lia)) in Hsame.
      injection Hsame as <-.
      exists n. conjuncts.
      * lia.
      * exact Hh.
      * destruct (calcNPV_sound Math_pow fuel values res' Hres)
          as (rest & _ & _ & _ & _ & _ & Hy).
        exact Hy.
      * rewrite <- (length_map CashFlowRow.year), Hyears. unfold yearsUpTo.
        rewrite length_map, length_seq. lia.
      * exact Hyears.
      * rewrite Hyears. apply yearsUpTo_sorted.
        change (2 ^ 53)%Z with 9007199254740992%Z. lia.
    + exfalso. unfold horizonYears in Hgt.
      unfold calcNPV, push in Hres. cbv zeta in Hres.
      change (N.of_nat (@List.length CashFlowRow.t []) <? MAX_ARRAY_LENGTH)%N
        with true in Hres.
      cbv iota in Hres. cbn [app] in Hres.
      destruct (calcNPV_loop _ _ _ _ _ _ _ _) as [out| |] eqn:Hloop;
        try discriminate Hres.
      exact (calcNPV_above_limit_outcome Math_pow _ _ _ Hgt _ _ _ _ Hloop).
  - intros Hle.
    destruct (calcNPV_returns Math_pow values Hle)
      as (n & _ & _ & res & Hres & _).
    exists (S n), res. apply Hres. lia.
Qed.

End RowCount.

(** [calcNPV_row_count] on the two-and-a-half-year horizon: two years, three
    rows. *)
Lemma calcNPV_row_count_witness :
  is_nan (horizonYears Sample.shortHorizon) = false
  /\ exists res,
       calcNPV Ref.Math_pow 3 Sample.shortHorizon = Returns res
       /\ exists n : nat,
            (1 <= n)%nat
            /\ horizonYears Sample.shortHorizon = Z2F (Z.of_nat n)
            /\ NPVResult.years res = horizonYears Sample.shortHorizon
            /\ List.length (NPVResult.rows res) = (n + 1)%nat
            /\ map CashFlowRow.year (NPVResult.rows res) = yearsUpTo n
            /\ StronglySorted (fun a b => (a <? b)%float = true)
                 (map CashFlowRow.year (NPVResult.rows res)).
Proof.
  split; [reflexivity|].
  eexists. split; [vm_compute; reflexivity|].
  exact (proj1 (calcNPV_row_count Ref.Math_pow Sample.shortHorizon eq_refl)
           3%nat _ eq_refl).
Defined.

(** ** The table that is rendered *)

Section TableProperties.

Local Open Scope float_scope.

Variable toLocaleCurrency : float -> string.
Variable toLocaleDigits : float -> float -> string.
Variable Number_toString : float -> string.

(** X11. The highlighted year is the year of the first row, in table order,
    whose cumulative present value is at least zero; there is none exactly
    when no row has one. *)
Theorem breakevenYear_first (rows : list CashFlowRow.t) :
  match breakevenYear rows with
  | Some y =>
      exists i row,
        nth_error rows i = Some row /\ CashFlowRow.year row = y
        /\ (0 <=? CashFlowRow.cumulative row) = true
        /\ forall j row', (j < i)%nat -> nth_error rows j = Some row' ->
             (0 <=? CashFlowRow.cumulative row') = false
  | None =>
      forall row, In row rows -> (0 <=? CashFlowRow.cumulative row) = false
  end.
Proof.
  induction rows as [|r rows IH]; cbn [breakevenYear].
  - intros row [].
  - destruct (0 <=? CashFlowRow.cumulative r) eqn:Hr.
    + exists 0%nat, r. conjuncts; try reflexivity; try assumption.
      intros j row' Hj. lia.
    + destruct (breakevenYear rows) as [y|].
      * destruct IH as (i & row & Hrow & Hy & Hc & Hbefore).
        exists (S i), row. conjuncts; try assumption.
        intros [|j] row' Hj Hrow'.
        -- injection Hrow' as <-. exact Hr.
        -- apply (Hbefore j row'); [lia|exact Hrow'].
      * intros row [<-|Hin]; [exact Hr|apply IH, Hin].
Qed.

Lemma breakevenYear_index (rows : list CashFlowRow.t) :
  breakevenYear rows
  = match breakevenIndex rows with
    | Some i => option_map CashFlowRow.year (nth_error rows i)
    | None => None
    end.
Proof.
  induction rows as [|r rows IH]; cbn [breakevenYear breakevenIndex];
    [reflexivity|].
  destruct (0 <=? CashFlowRow.cumulative r); [reflexivity|].
  rewrite IH. destruct (breakevenIndex rows); reflexivity.
Qed.

Lemma breakevenIndex_bound (rows : list CashFlowRow.t) (i : nat) :
  breakevenIndex rows = Some i -> (i < List.length rows)%nat.
Proof.
  revert i. induction rows as [|r rows IH]; intros i; cbn [breakevenIndex];
    [discriminate|].
  destruct (0 <=? CashFlowRow.cumulative r).
  - intros [= <-]. cbn. lia.
  - destruct (breakevenIndex rows) as [j|]; [|discriminate].
    intros [= <-]. cbn. specialize (IH j eq_refl). lia.
Qed.

(** X12. In a table [calcNPV] returned exactly one row is highlighted, the
    first whose cumulative present value is at least zero, and none when no
    row has one: no two rows share a year. *)
Theorem highlight_unique (Math_pow : float -> float -> float)
    (values : Values.t) (fuel : nat) (res : NPVResult.t) :
  calcNPV Math_pow fuel values = Returns res ->
  let rows := NPVResult.rows res in
  let view := renderRow toLocaleCurrency toLocaleDigits Number_toString
                (breakevenYear rows) in
  match breakevenIndex rows with
  | Some i =>
      forall j row, nth_error rows j = Some row ->
        (trClass (view row) = "highlight"%string <-> j = i)
  | None => forall row, In row rows -> trClass (view row) = ""%string
  end.
Proof.
  intros Hres. cbv zeta.
  destruct (calcNPV_returned_years_upTo Math_pow values fuel res Hres)
    as (n & Hn & Hy).
  rewrite breakevenYear_index.
  destruct (breakevenIndex (NPVResult.rows res)) as [i|] eqn:Hi.
  - pose proof (breakevenIndex_bound _ _ Hi) as Hlt.
    assert (Hlen : List.length (NPVResult.rows res) = S n).
    { rewrite <- (length_map CashFlowRow.year), Hy. unfold yearsUpTo.
      rewrite length_map, length_seq. reflexivity. }
    destruct (row_of_year _ n i Hy ltac:(lia)) as (rowi & Hrowi & Hyi).
    rewrite Hrowi. cbn [option_map]. intros j row Hrow.
    assert (Hj : (j <= n)%nat).
    { apply Nat.lt_succ_r. rewrite <- Hlen. apply nth_error_Some.
      rewrite Hrow. discriminate. }
    destruct (row_of_year _ n j Hy Hj) as (row' & Hrow' & Hyj).
    rewrite Hrow in Hrow'. injection Hrow' as <-.
    unfold renderRow. cbn [trClass]. rewrite Hyi, Hyj, eqb_spec.
    unfold SFeqb. rewrite Z2F_compare
      by (change (2 ^ 53)%Z with 9007199254740992%Z; lia).
    destruct (Z.compare_spec (Z.of_nat j) (Z.of_nat i)) as [E|L|G].
    + split; [intros _; lia|reflexivity].
    + split; [discriminate|lia].
    + split; [discriminate|lia].
  - intros row _. reflexivity.
Qed.

(** X13. In a table [calcNPV] returned the net cash flow cell shows the
    dash in row 0 and in no other row: every later row shows its formatted
    net cash flow. *)
Theorem net_dash_row0_only (Math_pow : float -> float -> float)
    (values : Values.t) (fuel : nat) (res : NPVResult.t) :
  calcNPV Math_pow fuel values = Returns res ->
  forall highlight j row,
    nth_error (NPVResult.rows res) j = Some row ->
    netText (renderRow toLocaleCurrency toLocaleDigits Number_toString
               highlight row)
    = match j with
      | O => "—"%string
      | S _ => fmtCurrency toLocaleCurrency (CashFlowRow.net row)
      end.
Proof.
  intros Hres highlight j row Hrow.
  destruct (calcNPV_returned_years_upTo Math_pow values fuel res Hres)
    as (n & Hn & Hy).
  assert (Hj : (j <= n)%nat).
  { assert (Hlen : List.length (NPVResult.rows res) = S n).
    { rewrite <- (length_map CashFlowRow.year), Hy. unfold yearsUpTo.
      rewrite length_map, length_seq. reflexivity. }
    apply Nat.lt_succ_r. rewrite <- Hlen. apply nth_error_Some.
    rewrite Hrow. discriminate. }
  destruct (row_of_year _ n j Hy Hj) as (row' & Hrow' & Hyj).
  rewrite Hrow in Hrow'. injection Hrow' as <-.
  unfold renderRow. cbn [netText]. rewrite Hyj.
  change 0 with (Z2F 0). rewrite eqb_spec. unfold SFeqb.
  rewrite Z2F_compare by (change (2 ^ 53)%Z with 9007199254740992%Z; lia).
  destruct j as [|j]; [reflexivity|].
  destruct (Z.compare_spec (Z.of_nat (S j)) 0); try lia; reflexivity.
Qed.

End TableProperties.

(** ** Local storage and the theme *)

Section StorageProperties.

Variable JSON_stringify : Values.t -> string.
Variable Saved : Type.
Variable JSON_parse : string -> option Saved.

Lemma setItem_works (st : Storage) (key text : string) :
  denied st = false -> full st = false ->
  exists st', setItem st key text = Some st'
              /\ denied st' = false /\ full st' = false
              /\ forall k, items st' k
                           = if String.eqb k key then Some text
                             else items st k.
Proof.
  intros Hd Hf. unfold setItem. rewrite Hd, Hf. cbn [orb].
  eexists. split; [reflexivity|]. cbn [denied full items]. auto.
Qed.

(** X14. A saved snapshot is what the next load parses: with a working
    storage [loadInputs] after [saveInputs] hands the saved text to
    [JSON.parse] (an empty text reads as nothing saved).  With a full
    storage the write is dropped and the previous snapshot is still what is
    loaded. *)
Theorem loadInputs_after_saveInputs (st : Storage) (values : Values.t) :
  denied st = false ->
  (full st = false ->
     loadInputs Saved JSON_parse (saveInputs JSON_stringify st values)
     = if String.eqb (JSON_stringify values) "" then None
       else JSON_parse (JSON_stringify values))
  /\ (full st = true ->
      loadInputs Saved JSON_parse (saveInputs JSON_stringify st values)
      = loadInputs Saved JSON_parse st).
Proof.
  intros Hd. split; intros Hf.
  - unfold saveInputs.
    destruct (setItem_works st STORAGE_KEYS_inputs (JSON_stringify values)
                Hd Hf) as (st' & -> & Hd' & _ & Hitems).
    unfold loadInputs, getItem. rewrite Hd', Hitems, String.eqb_refl.
    reflexivity.
  - unfold saveInputs, setItem. rewrite Hd, Hf. reflexivity.
Qed.

(** X15. The two keys do not disturb each other: saving the inputs leaves
    every other key, the theme's among them, as it was, and applying a
    theme leaves the saved inputs as they were. *)
Theorem storage_keys_independent (st : Storage) (values : Values.t)
    (theme : string) (light : bool) :
  (forall k, k <> STORAGE_KEYS_inputs ->
     items (saveInputs JSON_stringify st values) k = items st k)
  /\ items (saveInputs JSON_stringify st values) STORAGE_KEYS_theme
     = items st STORAGE_KEYS_theme
  /\ loadInputs Saved JSON_parse
       (storage (applyTheme theme {| themeLight := light; storage := st |}))
     = loadInputs Saved JSON_parse st.
Proof.
  assert (Hsave : forall k, k <> STORAGE_KEYS_inputs ->
            items (saveInputs JSON_stringify st values) k = items st k).
  { intros k Hk. unfold saveInputs, setItem.
    destruct (denied st || full st); [reflexivity|]. cbn [items].
    rewrite (proj2 (String.eqb_neq _ _) Hk). reflexivity. }
  conjuncts.
  - exact Hsave.
  - apply Hsave. discriminate.
  - unfold applyTheme, setItem. cbn [storage].
    destruct (denied st || full st) eqn:Hdf; cbn [storage]; [reflexivity|].
    unfold loadInputs, getItem. cbn [denied items].
    change (String.eqb STORAGE_KEYS_inputs STORAGE_KEYS_theme) with false.
    reflexivity.
Qed.

(** What [loadTheme] finds after [applyTheme]. *)
Lemma loadTheme_after_applyTheme_aux (theme : string) (prefersDark : bool)
    (state : ThemeState) :
  denied (storage state) = false -> full (storage state) = false ->
  theme <> ""%string ->
  let applied := applyTheme theme state in
  themeLight applied = String.eqb theme "light"
  /\ exists loaded,
       loadTheme prefersDark applied = Some loaded
       /\ themeLight loaded = themeLight applied
       /\ forall k, items (storage loaded) k = items (storage applied) k.
Proof.
  intros Hd Hf Hne. cbv zeta.
  destruct (setItem_works (storage state) STORAGE_KEYS_theme theme Hd Hf)
    as (st' & Hset & Hd' & Hf' & Hitems).
  assert (Happ : applyTheme theme state
                 = {| themeLight := String.eqb theme "light"; storage := st' |})
    by (unfold applyTheme; rewrite Hset; reflexivity).
  rewrite Happ. cbn [themeLight storage]. split; [reflexivity|].
  destruct (setItem_works st' STORAGE_KEYS_theme theme Hd' Hf')
    as (st'' & Hset' & _ & _ & Hitems').
  exists {| themeLight := String.eqb theme "light"; storage := st'' |}.
  cbn [themeLight storage]. conjuncts.
  - unfold loadTheme, getItem. cbn [storage].
    rewrite Hd', Hitems, String.eqb_refl.
    destruct theme as [|c rest]; [contradiction|].
    unfold applyTheme. cbn [storage]. rewrite Hset'. reflexivity.
  - reflexivity.
  - intros k. rewrite Hitems', Hitems.
    destruct (String.eqb k STORAGE_KEYS_theme); reflexivity.
Qed.

(** X16. An applied theme is restored by the next load, whatever the
    system prefers: with a working storage and a theme name that is not
    empty, [loadTheme] after [applyTheme] leaves the class (set exactly for
    [light]) and every stored item as they are. *)
Theorem loadTheme_after_applyTheme (theme : string) (prefersDark : bool)
    (state : ThemeState) :
  denied (storage state) = false -> full (storage state) = false ->
  theme <> ""%string ->
  let applied := applyTheme theme state in
  themeLight applied = String.eqb theme "light"
  /\ exists loaded,
       loadTheme prefersDark applied = Some loaded
       /\ themeLight loaded = themeLight applied
       /\ forall k, items (storage loaded) k = items (storage applied) k.
Proof. exact (loadTheme_after_applyTheme_aux theme prefersDark state). Qed.

(** X17. The system preference counts once: with a working storage that
    holds no theme (or an empty one), [loadTheme] sets the light class
    exactly when the system does not prefer dark, and stores its choice, so
    that a later [loadTheme] gives the same class whatever the system
    prefers by then. *)
Theorem loadTheme_first_then_sticks (prefersDark later : bool)
    (state : ThemeState) :
  denied (storage state) = false -> full (storage state) = false ->
  (items (storage state) STORAGE_KEYS_theme = None
   \/ items (storage state) STORAGE_KEYS_theme = Some ""%string) ->
  exists first,
    loadTheme prefersDark state = Some first
    /\ themeLight first = negb prefersDark
    /\ exists second,
         loadTheme later first = Some second
         /\ themeLight second = themeLight first.
Proof.
  intros Hd Hf Hnone.
  assert (Hfirst : loadTheme prefersDark state
                   = Some (applyTheme (if prefersDark then "dark" else "light")
                             state)).
  { unfold loadTheme, getItem. rewrite Hd.
    destruct Hnone as [-> | ->]; reflexivity. }
  rewrite Hfirst. eexists. split; [reflexivity|].
  set (theme := (if prefersDark then "dark" else "light")%string).
  assert (Hne : theme <> ""%string) by (unfold theme; destruct prefersDark; discriminate).
  destruct (loadTheme_after_applyTheme_aux theme later state Hd Hf Hne)
    as (Hlight & loaded & Hload & Hsame & _).
  split.
  - rewrite Hlight. unfold theme. destruct prefersDark; reflexivity.
  - exists loaded. split; assumption.
Qed.

End StorageProperties.

(** ** Filling the inputs and reading them back *)

Section PopulateProperties.

Local Open Scope float_scope.

Variable parseFloat : string -> float.
Variable Number_toString : float -> string.

Lemma qs_populateInput (values : NumberObject) (doc : Document)
    (k id : string) :
  qs (populateInput Number_toString values doc k) id
  = if String.eqb id k
    then option_map
           (fun el => mkElement (Number_toString (populated values k))
                        (textContent el))
           (qs doc k)
    else qs doc id.
Proof.
  unfold populateInput, populated, qs, setValue.
  destruct (String.eqb_spec id k) as [->|Hne].
  - destruct (doc k) eqn:E; rewrite ?String.eqb_refl; [reflexivity|exact E].
  - destruct (doc k); [|reflexivity].
    rewrite (proj2 (String.eqb_neq id k) Hne). reflexivity.
Qed.

Lemma qs_populateInput_other (values : NumberObject) (doc : Document)
    (k id : string) :
  id <> k -> qs (populateInput Number_toString values doc k) id = qs doc id.
Proof.
  intros Hne. rewrite qs_populateInput.
  rewrite (proj2 (String.eqb_neq id k) Hne). reflexivity.
Qed.

(** Looks an id up through the seven inputs [populateInputs] fills. *)
Ltac through_inputs :=
  repeat first
    [ rewrite qs_populateInput_other by discriminate
    | rewrite qs_populateInput_other by assumption
    | rewrite qs_populateInput, String.eqb_refl ].

(** What the page holds at an input after [populateInputs]. *)
Lemma qs_populateInputs (values : NumberObject) (doc : Document)
    (k : string) :
  In k DEFAULTS_keys ->
  qs (populateInputs Number_toString values doc) k
  = option_map
      (fun el => mkElement (Number_toString (populated values k))
                   (textContent el))
      (qs doc k).
Proof.
  unfold populateInputs, DEFAULTS_keys. cbn [In fold_left].
  intros [<-|[<-|[<-|[<-|[<-|[<-|[<-|[]]]]]]]]; through_inputs; reflexivity.
Qed.

(** X18. [populateInputs] writes the seven inputs and nothing else: an
    element that is not one of them is left as it was, no element appears
    or disappears, and no message text changes. *)
Theorem populateInputs_frame (values : NumberObject) (doc : Document)
    (id : string) :
  let page' := populateInputs Number_toString values doc in
  (~ In id DEFAULTS_keys -> qs page' id = qs doc id)
  /\ option_map textContent (qs page' id) = option_map textContent (qs doc id).
Proof.
  cbv zeta.
  assert (Hout : ~ In id DEFAULTS_keys ->
                 qs (populateInputs Number_toString values doc) id = qs doc id).
  { unfold populateInputs, DEFAULTS_keys. cbn [In fold_left]. intros Hid.
    assert (H1 : id <> "price"%string) by (intros ->; apply Hid; tauto).
    assert (H2 : id <> "reno"%string) by (intros ->; apply Hid; tauto).
    assert (H3 : id <> "mgmt"%string) by (intros ->; apply Hid; tauto).
    assert (H4 : id <> "tax"%string) by (intros ->; apply Hid; tauto).
    assert (H5 : id <> "rent"%string) by (intros ->; apply Hid; tauto).
    assert (H6 : id <> "discount"%string) by (intros ->; apply Hid; tauto).
    assert (H7 : id <> "years"%string) by (intros ->; apply Hid; tauto).
    through_inputs. reflexivity. }
  split; [exact Hout|].
  destruct (in_dec string_dec id DEFAULTS_keys) as [Hin|Hnot].
  - rewrite (qs_populateInputs values doc id Hin).
    destruct (qs doc id); reflexivity.
  - rewrite (Hout Hnot). reflexivity.
Qed.

(** Reading an input that [populateInputs] has filled. *)
Lemma readInputValue_populated (values : NumberObject) (doc : Document)
    (k : string) (fallback : float) :
  In k DEFAULTS_keys ->
  readInputValue parseFloat (populateInputs Number_toString values doc) k
    fallback
  = match qs doc k with
    | None => fallback
    | Some _ =>
        let v := parseFloat (Number_toString (populated values k)) in
        if Number_isFinite v then v else fallback
    end.
Proof.
  intros Hk. unfold readInputValue. rewrite (qs_populateInputs values doc k Hk).
  destruct (qs doc k); reflexivity.
Qed.

(** X19. Reset is read back as the defaults: after
    [populateInputs(DEFAULTS)] validation returns [DEFAULTS], on every page,
    whichever inputs it has, as soon as the seven default Numbers come back
    from their texts. *)
Theorem reset_reads_defaults (doc : Document) :
  roundTrips parseFloat Number_toString DEFAULTS ->
  fst (validateAndReadAll parseFloat
         (populateInputs Number_toString (objectOf DEFAULTS) doc))
  = DEFAULTS.
Proof.
  intros (Hp & Hr & Hm & Ht & Hrent & Hd & Hy).
  unfold validateAndReadAll. cbn [fst].
  rewrite !readInputValue_populated
    by (unfold DEFAULTS_keys; cbn [In]; tauto).
  unfold populated. cbn [objectOf String.eqb Ascii.eqb Bool.eqb].
  cbv zeta. rewrite Hp, Hr, Hm, Ht, Hrent, Hd, Hy.
  destruct (qs doc "price"), (qs doc "reno"), (qs doc "mgmt"),
    (qs doc "tax"), (qs doc "rent"), (qs doc "discount"), (qs doc "years");
    reflexivity.
Qed.

(** X20. Saved values are read back as they were saved: when the page has
    all seven inputs, filling them with validated values (over the defaults,
    as [setup] does) and validating returns exactly these values, as soon as
    the seven Numbers come back from their texts. *)
Theorem restore_reads_saved (doc : Document) (values : Values.t) :
  allFinite values ->
  horizonYears values = Values.years values ->
  (forall k, In k DEFAULTS_keys -> qs doc k <> None) ->
  roundTrips parseFloat Number_toString values ->
  fst (validateAndReadAll parseFloat
         (populateInputs Number_toString
            (assignOverDefaults (objectOf values)) doc))
  = values.
Proof.
  intros (Fp & Fr & Fm & Ft & Frent & Fd & Fy) Hh Hall
         (Hp & Hr & Hm & Ht & Hrent & Hd & Hy).
  unfold validateAndReadAll. cbn [fst].
  rewrite !readInputValue_populated
    by (unfold DEFAULTS_keys; cbn [In]; tauto).
  unfold populated, assignOverDefaults.
  cbn [objectOf String.eqb Ascii.eqb Bool.eqb]. cbv zeta.
  rewrite Hp, Hr, Hm, Ht, Hrent, Hd, Hy, Fp, Fr, Fm, Ft, Frent, Fd, Fy.
  pose proof (Hall "price"%string) as A1. pose proof (Hall "reno"%string) as A2.
  pose proof (Hall "mgmt"%string) as A3. pose proof (Hall "tax"%string) as A4.
  pose proof (Hall "rent"%string) as A5.
  pose proof (Hall "discount"%string) as A6.
  pose proof (Hall "years"%string) as A7.
  unfold DEFAULTS_keys in *. cbn [In] in *.
  destruct (qs doc "price"); [|exfalso; apply A1; tauto].
  destruct (qs doc "reno"); [|exfalso; apply A2; tauto].
  destruct (qs doc "mgmt"); [|exfalso; apply A3; tauto].
  destruct (qs doc "tax"); [|exfalso; apply A4; tauto].
  destruct (qs doc "rent"); [|exfalso; apply A5; tauto].
  destruct (qs doc "discount"); [|exfalso; apply A6; tauto].
  destruct (qs doc "years"); [|exfalso; apply A7; tauto].
  unfold horizonYears in Hh. rewrite Hh.
  destruct values; reflexivity.
Qed.

End PopulateProperties.

(** ** The two results of one calculation *)

Section Consistency.

Local Open Scope float_scope.

Variable parseFloat : string -> float.
Variable Math_pow : float -> float -> float.

(** X21. The two results of one [calculate] agree: row 0 of the table
    carries minus the total investment of the ROI result, every later row
    carries its annual net income as net cash flow, and the table's
    discount rate is the validated one. *)
Theorem calculate_consistent (fuel : nat) (doc : Document)
    (res : NPVResult.t) :
  let c := calculate parseFloat Math_pow fuel doc in
  npvRes c = Returns res ->
  exists row0 rest,
    NPVResult.rows res = row0 :: rest
    /\ CashFlowRow.net row0 = - ROIResult.invest (roiRes c)
    /\ CashFlowRow.pv row0 = - ROIResult.invest (roiRes c)
    /\ Forall (fun row => CashFlowRow.net row = ROIResult.annualNet (roiRes c))
         rest
    /\ NPVResult.discountPct res = Values.discount (inputs c).
Proof.
  cbv zeta. intros Hres.
  destruct (calculate_inputs parseFloat Math_pow fuel doc)
    as (Hin & Hroi & Hnpv).
  cbv zeta in Hin, Hroi, Hnpv. rewrite Hnpv in Hres. rewrite Hroi, Hin.
  destruct (calcNPV_sound Math_pow fuel _ res Hres)
    as (rest & Hrows & Hdisc & _ & _ & Hd & _).
  eexists. exists rest. split; [exact Hrows|]. conjuncts; try reflexivity.
  - apply Forall_forall. intros row Hrow.
    exact (proj1 (proj1 (Forall_forall _ _) Hdisc row Hrow)).
  - exact Hd.
Qed.

(** Adding to zero and negating, under a comparison with zero. *)
Lemma leb_zero_plus_opp (x : float) : (0 <=? 0 + - x) = (x <=? 0).
Proof.
  rewrite !leb_spec, add_spec, opp_spec.
  change (Prim2SF 0) with (S754_zero false).
  destruct (Prim2SF x) as [[]|[]| |[] m e]; reflexivity.
Qed.

(** X22. The purchase year breaks even exactly when nothing was invested:
    in a returned table row 0 is the first row with a cumulative present
    value of at least zero if and only if the total investment is at most
    zero. *)
Theorem breakeven_at_purchase (values : Values.t) (fuel : nat)
    (res : NPVResult.t) :
  calcNPV Math_pow fuel values = Returns res ->
  (breakevenIndex (NPVResult.rows res) = Some 0%nat
   <-> (ROIResult.invest (calcROI values) <=? 0) = true)
  /\ ((ROIResult.invest (calcROI values) <=? 0) = true ->
      breakevenYear (NPVResult.rows res) = Some 0).
Proof.
  intros Hres.
  destruct (calcNPV_sound Math_pow fuel values res Hres) as (rest & -> & _).
  cbv zeta. cbn [breakevenIndex breakevenYear CashFlowRow.cumulative
                   CashFlowRow.year].
  rewrite leb_zero_plus_opp.
  change (ROIResult.invest (calcROI values))
    with (Values.price values + Values.reno values).
  destruct (Values.price values + Values.reno values <=? 0).
  - split; [split; reflexivity|reflexivity].
  - split; [|discriminate]. split; [|discriminate].
    destruct (breakevenIndex rest); discriminate.
Qed.

End Consistency.

(** ** The further properties on sample inputs *)

Section MoreWitnesses.

Local Open Scope float_scope.

Lemma years_message_never_shown_witness :
  qs MoreRef.messagePage "years-msg" = Some (mkElement "" "stale")
  /\ qs (snd (validateAndReadAll Ref.parseFloat MoreRef.messagePage))
       "years-msg"
     = Some (mkElement "" "").
Proof.
  split; [reflexivity|].
  apply (years_message_never_shown Ref.parseFloat MoreRef.messagePage
           (mkElement "" "stale")).
  reflexivity.
Defined.

Lemma ruleAbiding_clears_messages_witness :
  ruleAbiding (fst (validateAndReadAll Ref.parseFloat MoreRef.messagePage))
  /\ In "price-msg"%string messageIds
  /\ qs MoreRef.messagePage "price-msg" = Some (mkElement "" "stale")
  /\ qs (snd (validateAndReadAll Ref.parseFloat MoreRef.messagePage))
       "price-msg"
     = Some (mkElement "" "").
Proof.
  assert (Hrule : ruleAbiding
                    (fst (validateAndReadAll Ref.parseFloat
                            MoreRef.messagePage)))
    by (unfold ruleAbiding; conjuncts; reflexivity).
  assert (Hin : In "price-msg"%string messageIds) by (left; reflexivity).
  split; [exact Hrule|]. split; [exact Hin|]. split; [reflexivity|].
  exact (ruleAbiding_clears_messages Ref.parseFloat MoreRef.messagePage
           "price-msg" (mkElement "" "stale") Hrule Hin eq_refl).
Defined.

Lemma calcNPV_above_limit_witness :
  (4294967294 <? horizonYears Sample.tooManyYears) = true
  /\ forall fuel res,
       calcNPV Ref.Math_pow fuel Sample.tooManyYears <> Returns res.
Proof.
  split; [reflexivity|].
  exact (calcNPV_above_limit Ref.Math_pow Sample.tooManyYears eq_refl).
Defined.

Lemma calcNPV_nan_years_witness :
  is_nan (Values.years MoreSamples.nanYears) = true
  /\ (1 <= 1)%nat
  /\ calcNPV Ref.Math_pow 1 MoreSamples.nanYears
     = Returns
         {| NPVResult.npv := -277000;
            NPVResult.rows :=
              [{| CashFlowRow.year := 0; CashFlowRow.net := -277000;
                  CashFlowRow.factor := 1; CashFlowRow.pv := -277000;
                  CashFlowRow.cumulative := -277000 |}];
            NPVResult.discountPct := 2;
            NPVResult.years := nan |}.
Proof.
  split; [reflexivity|]. split; [apply le_n|].
  exact (calcNPV_nan_years Ref.Math_pow MoreSamples.nanYears 1 eq_refl
           (le_n 1)).
Defined.

Lemma calcNPV_small_years_witness :
  (Values.years MoreSamples.negativeYears <? 2) = true
  /\ horizonYears MoreSamples.negativeYears = 1
  /\ exists res,
       (forall fuel, (1 < fuel)%nat ->
          calcNPV Ref.Math_pow fuel MoreSamples.negativeYears = Returns res)
       /\ map CashFlowRow.year (NPVResult.rows res) = [0; 1].
Proof.
  split; [reflexivity|].
  exact (calcNPV_small_years Ref.Math_pow MoreSamples.negativeYears eq_refl).
Defined.

Lemma calcNPV_returned_years_witness :
  exists res,
    calcNPV Ref.Math_pow 3 Sample.shortHorizon = Returns res
    /\ exists n : nat,
         List.length (NPVResult.rows res) = S n
         /\ (forall i row, nth_error (NPVResult.rows res) i = Some row ->
               CashFlowRow.year row = Z2F (Z.of_nat i))
         /\ StronglySorted (fun a b => (a <? b) = true)
              (map CashFlowRow.year (NPVResult.rows res)).
Proof.
  eexists. split; [vm_compute; reflexivity|].
  exact (calcNPV_returned_years Ref.Math_pow Sample.shortHorizon 3 _ eq_refl).
Defined.

Lemma highlight_unique_witness :
  exists res,
    calcNPV Ref.Math_pow 31 Sample.zeroInvestment = Returns res
    /\ breakevenIndex (NPVResult.rows res) = Some 0%nat
    /\ forall j row,
         nth_error (NPVResult.rows res) j = Some row ->
         (trClass (renderRow MoreRef.toLocale MoreRef.toLocaleDigits
                     MoreRef.Number_toString
                     (breakevenYear (NPVResult.rows res)) row)
          = "highlight"%string <-> j = 0%nat).
Proof.
  eexists. split; [vm_compute; reflexivity|]. split; [reflexivity|].
  exact (highlight_unique MoreRef.toLocale MoreRef.toLocaleDigits
           MoreRef.Number_toString Ref.Math_pow Sample.zeroInvestment 31 _
           eq_refl).
Defined.

Lemma net_dash_row0_only_witness :
  exists res row0,
    calcNPV Ref.Math_pow 3 Sample.shortHorizon = Returns res
    /\ nth_error (NPVResult.rows res) 0 = Some row0
    /\ netText (renderRow MoreRef.toLocale MoreRef.toLocaleDigits
                  MoreRef.Number_toString None row0)
       = "—"%string.
Proof.
  do 2 eexists. split; [vm_compute; reflexivity|]. split; [reflexivity|].
  exact (net_dash_row0_only MoreRef.toLocale MoreRef.toLocaleDigits
           MoreRef.Number_toString Ref.Math_pow Sample.shortHorizon 3 _
           eq_refl None 0%nat _ eq_refl).
Defined.

Lemma loadInputs_after_saveInputs_witness :
  denied MoreRef.emptyStorage = false
  /\ full MoreRef.emptyStorage = false
  /\ loadInputs float MoreRef.parse
       (saveInputs MoreRef.stringify MoreRef.emptyStorage DEFAULTS)
     = Some 30.
Proof.
  split; [reflexivity|]. split; [reflexivity|].
  exact (proj1 (loadInputs_after_saveInputs MoreRef.stringify float
                  MoreRef.parse MoreRef.emptyStorage DEFAULTS eq_refl)
           eq_refl).
Defined.

Lemma loadTheme_after_applyTheme_witness :
  denied MoreRef.emptyStorage = false
  /\ full MoreRef.emptyStorage = false
  /\ "dark"%string <> ""%string
  /\ themeLight (applyTheme "dark" (mkThemeState true MoreRef.emptyStorage))
     = false
  /\ exists loaded,
       loadTheme false (applyTheme "dark" (mkThemeState true MoreRef.emptyStorage))
       = Some loaded
       /\ themeLight loaded = false.
Proof.
  assert (Hne : "dark"%string <> ""%string) by discriminate.
  destruct (loadTheme_after_applyTheme "dark" false
              (mkThemeState true MoreRef.emptyStorage) eq_refl eq_refl Hne)
    as (Hlight & loaded & Hload & Hsame & _).
  split; [reflexivity|]. split; [reflexivity|]. split; [exact Hne|].
  split; [exact Hlight|]. exists loaded. split; [exact Hload|].
  rewrite Hsame. exact Hlight.
Defined.

Lemma loadTheme_first_then_sticks_witness :
  denied MoreRef.emptyStorage = false
  /\ full MoreRef.emptyStorage = false
  /\ items MoreRef.emptyStorage STORAGE_KEYS_theme = None
  /\ exists first,
       loadTheme true (mkThemeState true MoreRef.emptyStorage) = Some first
       /\ themeLight first = false
       /\ exists second,
            loadTheme false first = Some second
            /\ themeLight second = themeLight first.
Proof.
  split; [reflexivity|]. split; [reflexivity|]. split; [reflexivity|].
  exact (loadTheme_first_then_sticks true false
           (mkThemeState true MoreRef.emptyStorage) eq_refl eq_refl
           (or_introl eq_refl)).
Defined.

Lemma reset_reads_defaults_witness :
  roundTrips Ref.parseFloat MoreRef.Number_toString DEFAULTS
  /\ fst (validateAndReadAll Ref.parseFloat
            (populateInputs MoreRef.Number_toString (objectOf DEFAULTS)
               Sample.page))
     = DEFAULTS.
Proof.
  assert (Hrt : roundTrips Ref.parseFloat MoreRef.Number_toString DEFAULTS)
    by (unfold roundTrips; conjuncts; reflexivity).
  split; [exact Hrt|].
  exact (reset_reads_defaults Ref.parseFloat MoreRef.Number_toString
           Sample.page Hrt).
Defined.

Lemma restore_reads_saved_witness :
  allFinite Sample.zeroInvestment
  /\ horizonYears Sample.zeroInvestment = Values.years Sample.zeroInvestment
  /\ (forall k, In k DEFAULTS_keys -> qs MoreRef.blankPage k <> None)
  /\ roundTrips Ref.parseFloat MoreRef.Number_toString Sample.zeroInvestment
  /\ fst (validateAndReadAll Ref.parseFloat
            (populateInputs MoreRef.Number_toString
               (assignOverDefaults (objectOf Sample.zeroInvestment))
               MoreRef.blankPage))
     = Sample.zeroInvestment.
Proof.
  assert (Hfin : allFinite Sample.zeroInvestment)
    by (unfold allFinite; conjuncts; reflexivity).
  assert (Hall : forall k, In k DEFAULTS_keys -> qs MoreRef.blankPage k <> None).
  { intros k Hk. unfold qs, MoreRef.blankPage.
    replace (existsb (String.eqb k) DEFAULTS_keys) with true; [discriminate|].
    symmetry. apply existsb_exists. exists k. split; [exact Hk|].
    apply String.eqb_refl. }
  assert (Hrt : roundTrips Ref.parseFloat MoreRef.Number_toString
                  Sample.zeroInvestment)
    by (unfold roundTrips; conjuncts; reflexivity).
  split; [exact Hfin|]. split; [reflexivity|]. split; [exact Hall|].
  split; [exact Hrt|].
  exact (restore_reads_saved Ref.parseFloat MoreRef.Number_toString
           MoreRef.blankPage Sample.zeroInvestment Hfin eq_refl Hall Hrt).
Defined.

Lemma calculate_consistent_witness :
  exists res,
    npvRes (calculate Ref.parseFloat Ref.Math_pow 8 Sample.page) = Returns res
    /\ exists row0 rest,
         NPVResult.rows res = row0 :: rest
         /\ CashFlowRow.net row0
            = - ROIResult.invest
                  (roiRes (calculate Ref.parseFloat Ref.Math_pow 8 Sample.page))
         /\ CashFlowRow.pv row0
            = - ROIResult.invest
                  (roiRes (calculate Ref.parseFloat Ref.Math_pow 8 Sample.page))
         /\ Forall
              (fun row =>
                 CashFlowRow.net row
                 = ROIResult.annualNet
                     (roiRes
                        (calculate Ref.parseFloat Ref.Math_pow 8 Sample.page)))
              rest
         /\ NPVResult.discountPct res
            = Values.discount
                (inputs (calculate Ref.parseFloat Ref.Math_pow 8 Sample.page)).
Proof.
  assert (Hres : exists res,
            npvRes (calculate Ref.parseFloat Ref.Math_pow 8 Sample.page)
            = Returns res)
    by (eexists; vm_compute; reflexivity).
  destruct Hres as [res Hres]. exists res. split; [exact Hres|].
  exact (calculate_consistent Ref.parseFloat Ref.Math_pow 8 Sample.page res
           Hres).
Defined.

Lemma breakeven_at_purchase_witness :
  exists res,
    calcNPV Ref.Math_pow 31 Sample.zeroInvestment = Returns res
    /\ (ROIResult.invest (calcROI Sample.zeroInvestment) <=? 0) = true
    /\ breakevenIndex (NPVResult.rows res) = Some 0%nat
    /\ breakevenYear (NPVResult.rows res) = Some 0.
Proof.
  eexists. split; [vm_compute; reflexivity|]. split; [reflexivity|].
  destruct (breakeven_at_purchase Ref.Math_pow Sample.zeroInvestment 31 _
              eq_refl) as [Hiff Hyear].
  split; [exact (proj2 Hiff eq_refl)|exact (Hyear eq_refl)].
Defined.

End MoreWitnesses.
